(** * Motion-mapping core of cozmo-homebrew

    A shallow embedding of the two wheel-command mappers of the repository:

    - [translate_speed]    (Scripts/rc-wireless-opencv.py, lines 90-105),
      the arcade-drive mapper;
    - [_get_motor_thrust]  (test-connection.py, lines 295-319),
      the throttle/steering mapper.

    and of the code around them: the gamepad handler [_handle_input] and the
    keyboard loop of test-connection.py, the joystick event loop and the
    command-line flags of Scripts/rc-wireless-opencv.py.

    Number model.  Python floats are read as exact rationals ([Q]): every
    arithmetic operator is the exact one, [==] on floats is [Qeq] and [<] is
    [Qlt].  Rounding, infinities and NaN are outside the model; the
    statements below speak about the real-number behaviour of the code.

    Error model.  The float operators [%] and [/] raise [ZeroDivisionError]
    on a zero divisor; [+], [-], [*], unary minus, comparisons, [min] and
    [max] cannot fail on numbers.  Fallible code lives in the [outcome]
    monad. *)

From Stdlib Require Import QArith Qround Qabs Qminmax ZArith Lia Lqa List Bool.
From Stdlib Require Import Setoid Morphisms.
From Stdlib Require Import String Ascii.
From Stdlib Require Import PrimFloat FloatOps SpecFloat.
Import ListNotations.

Local Open Scope Q_scope.

(** ** Outcomes of a Python call *)

Inductive exn : Type :=
| ZeroDivisionError.

Inductive outcome (A : Type) : Type :=
| Returns (a : A)
| Raises (e : exn).

Arguments Returns {A} a.
Arguments Raises {A} e.

Definition bind {A B : Type} (c : outcome A) (k : A -> outcome B) : outcome B :=
  match c with
  | Returns a => k a
  | Raises e => Raises e
  end.

Notation "x <- c ;; k" := (bind c (fun x => k))
  (at level 61, c at next level, right associativity).

(** ** Python's numeric primitives over exact rationals *)

Module Py.

(** [a < b] on floats. *)
Definition ltb (a b : Q) : bool := negb (Qle_bool b a).

(** [a == b] on floats. *)
Definition eqb (a b : Q) : bool := Qeq_bool a b.

(** [x % y]: the result takes the sign of the divisor, that is
    [x - y * floor (x / y)]; a zero divisor raises. *)
Definition fmod (x y : Q) : Q := x - y * inject_Z (Qfloor (x / y)).

Definition float_mod (x y : Q) : outcome Q :=
  if eqb y 0 then Raises ZeroDivisionError
  else Returns (fmod x y).

(** [x / y]: true division; a zero divisor raises. *)
Definition float_div (x y : Q) : outcome Q :=
  if eqb y 0 then Raises ZeroDivisionError
  else Returns (x / y).

(** [max(a, b)]: the first argument unless a later one is strictly
    greater. *)
Definition max (a b : Q) : Q := if ltb a b then b else a.

(** [min(a, b)]: the first argument unless a later one is strictly
    smaller. *)
Definition min (a b : Q) : Q := if ltb b a then b else a.

(** [min(a, b, c)] scans left to right keeping the first smallest. *)
Definition min3 (a b c : Q) : Q := min (min a b) c.

End Py.

(** ** Scripts/rc-wireless-opencv.py *)

(** Line 14: [max_wheel_speed = 150.0]. *)
Definition max_wheel_speed : Q := 150.

(** Lines 90-105.  [float(...)] of a float is the identity. *)
Definition translate_speed (fwd turn : Q) : outcome (Q * Q) :=
  if Py.eqb fwd 0 && Py.eqb turn 0 then
    Returns (0, 0)
  else if Py.eqb fwd 0 then
    Returns (turn * max_wheel_speed, - turn * max_wheel_speed)
  else if Py.eqb turn 0 then
    Returns (fwd * max_wheel_speed, fwd * max_wheel_speed)
  else
    let avg_speed := fwd * max_wheel_speed in
    turn_speed <- Py.float_div (turn * max_wheel_speed) 2 ;;
    Returns (avg_speed + turn_speed, avg_speed - turn_speed).

(** ** test-connection.py *)

(** Line 307: [theta = ((theta + 180.0) % 360.0) - 180.0]. *)
Definition normalize_theta (theta : Q) : outcome Q :=
  m <- Py.float_mod (theta + 180) 360 ;;
  Returns (m - 180).

(** Line 309: [r = min(max(0.0, r), 100.0)]. *)
Definition clamp_throttle (r : Q) : Q := Py.min (Py.max 0 r) 100.

(** Line 310: [v_a = r * (45.0 - theta % 90.0) / 45.0]. *)
Definition compute_v_a (r theta : Q) : outcome Q :=
  m <- Py.float_mod theta 90 ;;
  Py.float_div (r * (45 - m)) 45.

(** Line 311: [v_b = min(100.0, 2.0 * r + v_a, 2.0 * r - v_a)]. *)
Definition compute_v_b (r v_a : Q) : Q :=
  Py.min3 100 (2 * r + v_a) (2 * r - v_a).

(** Lines 312-319: the quadrant dispatch. *)
Definition assign_quadrant (theta v_a v_b : Q) : Q * Q :=
  if Py.ltb theta (-90) then (- v_b, - v_a)
  else if Py.ltb theta 0 then (- v_a, v_b)
  else if Py.ltb theta 90 then (v_b, v_a)
  else (v_a, - v_b).

(** Lines 296-319. *)
Definition _get_motor_thrust (r theta : Q) : outcome (Q * Q) :=
  theta <- normalize_theta theta ;;
  let r := clamp_throttle r in
  v_a <- compute_v_a r theta ;;
  let v_b := compute_v_b r v_a in
  Returns (assign_quadrant theta v_a v_b).


(** ** Equality of results

    Python compares floats numerically, so results are compared up to
    [Qeq]; two calls agree only when both return. *)

Definition pair_eq (p q : Q * Q) : Prop :=
  fst p == fst q /\ snd p == snd q.

Definition swap (p : Q * Q) : Q * Q := (snd p, fst p).

Inductive agree {A : Type} (R : A -> A -> Prop) : outcome A -> outcome A -> Prop :=
| agree_returns a b : R a b -> agree R (Returns a) (Returns b).

(** [|x| <= b], written out. *)
Definition within (b x : Q) : Prop := - b <= x /\ x <= b.

(** ** Values of the intermediate steps

    Every divisor in the source is a non-zero literal, so each step returns;
    these are the values it returns (see [normalize_theta_returns],
    [compute_v_a_returns] and [get_motor_thrust_returns]). *)

Definition normalized (theta : Q) : Q := Py.fmod (theta + 180) 360 - 180.

Definition v_a_of (r theta : Q) : Q := r * (45 - Py.fmod theta 90) / 45.

Definition thrust_of (r theta : Q) : Q * Q :=
  assign_quadrant theta (v_a_of r theta) (compute_v_b r (v_a_of r theta)).

(** The components of a thrust pair that hold [+-v_b] (the outer wheel) and
    [+-v_a] (the inner wheel), read off the four return statements of
    lines 312-319. *)
Definition outer_inner (theta : Q) (p : Q * Q) : Q * Q :=
  if Py.ltb theta (-90) then (fst p, snd p)
  else if Py.ltb theta 0 then (snd p, fst p)
  else if Py.ltb theta 90 then (fst p, snd p)
  else (snd p, fst p).

(** ** The algorithms as the specification words them *)

Module Reference.

(** Section 4.1, the four cases of the arcade-drive algorithm. *)
Definition arcade (forward turn max_speed : Q) : Q * Q :=
  match Qeq_dec forward 0, Qeq_dec turn 0 with
  | left _, left _ => (0, 0)
  | left _, right _ => (turn * max_speed, - (turn * max_speed))
  | right _, left _ => (forward * max_speed, forward * max_speed)
  | right _, right _ =>
      let avg := forward * max_speed in
      let turn_component := turn * max_speed / 2 in
      (avg + turn_component, avg - turn_component)
  end.

(** The mathematical [x mod m], with values in [[0, m)]. *)
Definition modulo (x m : Q) : Q := x - m * inject_Z (Qfloor (x / m)).

(** Section 4.2, step 3. *)
Definition v_a (throttle theta : Q) : Q :=
  throttle * (45 - modulo theta 90) / 45.

(** Section 4.2, step 4. *)
Definition v_b (throttle v_a : Q) : Q :=
  Qmin 100 (Qmin (2 * throttle + v_a) (2 * throttle - v_a)).



End Reference.

(** ** test-connection.py: the gamepad handler

    [RCApp] keeps the fields set in [__init__] (lines 54-58) that the handler
    reads and writes.  The methods [stop], [_drive_lift] and [_drive_wheels]
    are called by the handler but are not defined in the file; a call to one
    of them is recorded, in order, in the list the handler returns, and is
    taken to leave the fields of [RCApp] alone. *)

Record RCApp : Type := {
  speed : Q;
  steering : Q;
  speed_left : Q;
  speed_right : Q;
  lift : bool
}.

(** An event of the [inputs] library: [ev_type], [code] and the integer
    [state]. *)
Record InputEvent : Type := {
  ev_type : string;
  code : string;
  state : Z
}.

Inductive call : Type :=
| CallStop
| CallDriveLift (power : Q)
| CallDriveWheels (left right : Q).

Definition set_steering (self : RCApp) (v : Q) : RCApp :=
  {| speed := speed self; steering := v; speed_left := speed_left self;
     speed_right := speed_right self; lift := lift self |}.

Definition set_speed (self : RCApp) (v : Q) : RCApp :=
  {| speed := v; steering := steering self; speed_left := speed_left self;
     speed_right := speed_right self; lift := lift self |}.

Definition set_speed_left (self : RCApp) (v : Q) : RCApp :=
  {| speed := speed self; steering := steering self; speed_left := v;
     speed_right := speed_right self; lift := lift self |}.

Definition set_speed_right (self : RCApp) (v : Q) : RCApp :=
  {| speed := speed self; steering := steering self;
     speed_left := speed_left self; speed_right := v; lift := lift self |}.

Definition set_lift (self : RCApp) (v : bool) : RCApp :=
  {| speed := speed self; steering := steering self;
     speed_left := speed_left self; speed_right := speed_right self;
     lift := v |}.

(** Lines 361-362 and 369-370: [if -0.15 < v < 0.15: v = 0]. *)
Definition stick_deadband (v : Q) : Q :=
  if Py.ltb (- (15 # 100)) v && Py.ltb v (15 # 100) then 0 else v.

(** Lines 325-354, the branch [e.ev_type == "Key"]. *)
Definition handle_key (self : RCApp) (e : InputEvent) : RCApp * list call :=
  if String.eqb (code e) "BTN_START" then
    if Z.eqb (state e) 1 then (self, [CallStop]) else (self, [])
  else if String.eqb (code e) "BTN_TRIGGER_HAPPY3" then
    if Z.eqb (state e) 1 then (self, [CallDriveLift (8 # 10)])
    else (self, [CallDriveLift 0])
  else if String.eqb (code e) "BTN_TRIGGER_HAPPY4" then
    if Z.eqb (state e) 1 then (self, [CallDriveLift (- (8 # 10))])
    else (self, [CallDriveLift 0])
  else if String.eqb (code e) "BTN_TRIGGER_HAPPY1" then
    if Z.eqb (state e) 1 then (set_lift self false, []) else (self, [])
  else if String.eqb (code e) "BTN_TRIGGER_HAPPY2" then
    if Z.eqb (state e) 1 then (set_lift self true, []) else (self, [])
  else (self, []).

(** Lines 355-403, the branch [e.ev_type == "Absolute"]; the two booleans
    are the flags [update] and [update2]. *)
Definition handle_absolute (self : RCApp) (e : InputEvent)
  : outcome (RCApp * list call * bool * bool) :=
  if String.eqb (code e) "ABS_RX" then
    v <- Py.float_div (inject_Z (- state e)) 32768 ;;
    Returns (set_steering self (stick_deadband v), [], true, false)
  else if String.eqb (code e) "ABS_Y" then
    v <- Py.float_div (inject_Z (- state e)) 32768 ;;
    Returns (set_speed self (stick_deadband v), [], true, false)
  else if String.eqb (code e) "ABS_Z" then
    v <- Py.float_div (inject_Z (state e)) 255 ;;
    Returns (set_speed_left self v, [], false, true)
  else if String.eqb (code e) "ABS_RZ" then
    v <- Py.float_div (inject_Z (state e)) 255 ;;
    Returns (set_speed_right self v, [], false, true)
  else if String.eqb (code e) "ABS_HAT0Y" then
    if Z.eqb (state e) (-1) then
      Returns (self, [CallDriveLift (8 # 10)], false, false)
    else if Z.eqb (state e) 1 then
      Returns (self, [CallDriveLift (- (8 # 10))], false, false)
    else Returns (self, [CallDriveLift 0], false, false)
  else if String.eqb (code e) "ABS_HAT0X" then
    if Z.eqb (state e) 1 then Returns (set_lift self true, [], false, false)
    else if Z.eqb (state e) (-1) then
      Returns (set_lift self false, [], false, false)
    else Returns (self, [], false, false)
  else Returns (self, [], false, false).

(** Lines 409-413: throttle and angle handed to [_get_motor_thrust]. *)
Definition polar_of_sticks (self : RCApp) : Q * Q :=
  let r := speed self in
  let theta := - steering self * 90 in
  if Py.ltb r 0 then (r * - (1), theta + 180) else (r, theta).

(** Lines 408-417, the block under [if update:]. *)
Definition update_wheels (self : RCApp) : outcome (list call) :=
  let r_theta := polar_of_sticks self in
  p <- _get_motor_thrust (fst r_theta) (snd r_theta) ;;
  Returns [CallDriveWheels (fst p) (snd p)].

(** Lines 321-420. *)
Definition _handle_input (self : RCApp) (e : InputEvent)
  : outcome (RCApp * list call) :=
  d <- (if String.eqb (ev_type e) "Key" then
          Returns (handle_key self e, false, false)
        else if String.eqb (ev_type e) "Absolute" then
          handle_absolute self e
        else Returns (self, [], false, false)) ;;
  let self := fst (fst (fst d)) in
  let calls := snd (fst (fst d)) in
  let update := snd (fst d) in
  let update2 := snd d in
  calls1 <- (if update then
               w <- update_wheels self ;; Returns (calls ++ w)
             else Returns calls) ;;
  let calls2 :=
    if update2 then
      calls1 ++ [CallDriveWheels (speed_left self) (speed_right self)]
    else calls1 in
  Returns (self, calls2).

(** The value of a stick axis after lines 360-362 (or 368-370): the raw
    state negated and scaled by 32768, then the deadband. *)
Definition stick_value (raw : Z) : Q :=
  stick_deadband (inject_Z (- raw) / 32768).

(** The thrust pair [update_wheels] hands to [_drive_wheels]. *)
Definition wheels_of (self : RCApp) : Q * Q :=
  thrust_of (clamp_throttle (fst (polar_of_sticks self)))
            (normalized (snd (polar_of_sticks self))).


(** ** Scripts/rc-wireless-opencv.py: the joystick loop *)

(** Lines 15-19. *)
Definition max_head_speed : Q := 3.
Definition max_lift_speed : Q := 5.
Definition wheel_deadband : Q := 1 # 10.
Definition head_deadband : Q := 5 # 100.
Definition lift_deadband : Q := 5 # 100.

(** The pygame events the loop tells apart (lines 184-220); every other
    event type is [OtherEvent]. *)
Inductive pygame_event : Type :=
| QUIT
| JOYBUTTONDOWN (button : Z)
| JOYBUTTONUP (button : Z)
| JOYAXISMOTION (axis : Z) (value : Q)
| OtherEvent.

(** The local variables of [main] that the event handling writes
    (lines 129 and 162-167). *)
Record LoopState : Type := {
  done : bool;
  forward_speed : Q;
  turn_speed : Q;
  head_speed : Q;
  lift_speed : Q;
  expression : Z;
  make_sound : bool
}.

(** Lines 162-167, with [done = False] of line 129. *)
Definition initial_loop_state : LoopState :=
  {| done := false; forward_speed := 0; turn_speed := 0; head_speed := 0;
     lift_speed := 0; expression := -1; make_sound := false |}.

(** [-band < value < band]. *)
Definition in_deadband (band value : Q) : bool :=
  Py.ltb (- band) value && Py.ltb value band.

(** Lines 184-220, the body of [for event in pygame.event.get()]; the debug
    printing is left out. *)
Definition handle_event (st : LoopState) (event : pygame_event) : LoopState :=
  match event with
  | QUIT =>
      {| done := true; forward_speed := forward_speed st;
         turn_speed := turn_speed st; head_speed := head_speed st;
         lift_speed := lift_speed st; expression := expression st;
         make_sound := make_sound st |}
  | JOYBUTTONDOWN button =>
      if Z.ltb button 4 then
        {| done := done st; forward_speed := forward_speed st;
           turn_speed := turn_speed st; head_speed := head_speed st;
           lift_speed := lift_speed st; expression := button;
           make_sound := make_sound st |}
      else if Z.eqb button 4 || Z.eqb button 5 then
        {| done := done st; forward_speed := forward_speed st;
           turn_speed := turn_speed st; head_speed := head_speed st;
           lift_speed := lift_speed st; expression := expression st;
           make_sound := true |}
      else if Z.eqb button 7 then
        {| done := true; forward_speed := forward_speed st;
           turn_speed := turn_speed st; head_speed := head_speed st;
           lift_speed := lift_speed st; expression := expression st;
           make_sound := make_sound st |}
      else st
  | JOYBUTTONUP _ => st
  | JOYAXISMOTION axis value =>
      if Z.eqb axis 1 then
        {| done := done st;
           forward_speed :=
             if in_deadband wheel_deadband value then 0 else - value;
           turn_speed := turn_speed st; head_speed := head_speed st;
           lift_speed := lift_speed st; expression := expression st;
           make_sound := make_sound st |}
      else if Z.eqb axis 0 then
        {| done := done st; forward_speed := forward_speed st;
           turn_speed :=
             if in_deadband wheel_deadband value then 0 else value;
           head_speed := head_speed st;
           lift_speed := lift_speed st; expression := expression st;
           make_sound := make_sound st |}
      else if Z.eqb axis 3 then
        {| done := done st; forward_speed := forward_speed st;
           turn_speed := turn_speed st;
           head_speed :=
             if in_deadband head_deadband value then 0
             else - value * max_head_speed;
           lift_speed := lift_speed st; expression := expression st;
           make_sound := make_sound st |}
      else if Z.eqb axis 2 then
        {| done := done st; forward_speed := forward_speed st;
           turn_speed := turn_speed st; head_speed := head_speed st;
           lift_speed :=
             if in_deadband lift_deadband value then 0
             else - value * max_lift_speed;
           expression := expression st; make_sound := make_sound st |}
      else st
  | OtherEvent => st
  end.

(** Line 183: the events of one frame, handled in order. *)
Definition handle_events (st : LoopState) (events : list pygame_event)
  : LoopState :=
  fold_left handle_event events st.

(** Line 281: the wheel speeds handed to [drive_wheels] at the end of the
    frame. *)
Definition frame_wheels (st : LoopState) : outcome (Q * Q) :=
  translate_speed (forward_speed st) (turn_speed st).

(** An axis event as pygame delivers it: a value in [[-1, 1]]; a button
    event: a button number that is not negative. *)
Definition well_formed_event (event : pygame_event) : Prop :=
  match event with
  | JOYAXISMOTION _ value => within 1 value
  | JOYBUTTONDOWN button | JOYBUTTONUP button => (0 <= button)%Z
  | _ => True
  end.

(** The four speeds are within their maxima, and the two wheel axes are
    either at rest or outside the wheel deadband. *)
Definition speeds_in_range (st : LoopState) : Prop :=
  within 1 (forward_speed st) /\ within 1 (turn_speed st) /\
  within max_head_speed (head_speed st) /\
  within max_lift_speed (lift_speed st) /\
  (forward_speed st = 0 \/ wheel_deadband <= Qabs (forward_speed st)) /\
  (turn_speed st = 0 \/ wheel_deadband <= Qabs (turn_speed st)).

(** The events that end the loop: closing the window, or button 7. *)
Definition quits (event : pygame_event) : bool :=
  match event with
  | QUIT => true
  | JOYBUTTONDOWN button => Z.eqb button 7
  | _ => false
  end.

(** ** Scripts/rc-wireless-opencv.py: the command line (lines 302-323) *)

Record Flags : Type := {
  run_cozmo : bool;
  use_debug : bool;
  print_help : bool
}.

(** Lines 305-307. *)
Definition default_flags : Flags :=
  {| run_cozmo := true; use_debug := false; print_help := false |}.

(** The slice [l[a:b]] for [0 <= a] and [0 <= b]. *)
Definition py_slice {A : Type} (l : list A) (a b : nat) : list A :=
  firstn (b - a) (skipn a l).

(** Lines 310-313. *)
Definition select_commands (argv : list string) : list string :=
  if Nat.leb 2 (List.length argv)
  then py_slice argv 1 (List.length argv - 1)
  else [""%string].

(** Lines 317-323, the body of [for arg in commands]. *)
Definition apply_arg (flags : Flags) (arg : string) : Flags :=
  if String.eqb arg "nocozmo" then
    {| run_cozmo := false; use_debug := use_debug flags;
       print_help := print_help flags |}
  else if String.eqb arg "debug" || String.eqb arg "-v" then
    {| run_cozmo := run_cozmo flags; use_debug := true;
       print_help := print_help flags |}
  else if String.eqb arg "help" || String.eqb arg "-h" ||
          String.eqb arg "--h" || String.eqb arg "?" then
    {| run_cozmo := run_cozmo flags; use_debug := use_debug flags;
       print_help := true |}
  else flags.

(** Lines 305-323: the flags the script ends up with for [sys.argv]. *)
Definition parse_flags (argv : list string) : Flags :=
  fold_left apply_arg (select_commands argv) default_flags.

(** ** test-connection.py: the keyboard loop (lines 173-268)

    The constants of [pycozmo] and the two values of [math.radians] are
    defined outside the repository; they are the fields of [Constants]. *)

Record Constants : Type := {
  MAX_WHEEL_SPEED_mmps : Q;
  TRACK_WIDTH_mm : Q;
  MAX_HEAD_ANGLE_radians : Q;
  MIN_HEAD_ANGLE_radians : Q;
  MAX_LIFT_HEIGHT_mm : Q;
  MIN_LIFT_HEIGHT_mm : Q;
  ANG_INC : Q;    (* line 64: math.radians(20) *)
  HEAD_INC : Q    (* line 65: math.radians(2) *)
}.

(** Lines 63 and 66. *)
Definition LIN_INC : Q := 20.
Definition LIFT_INC : Q := 5.

(** The module-level variables of lines 72-76. *)
Record Teleop : Type := {
  LIN_VELOCITY : Q;
  ANG_VELOCITY : Q;
  HEAD_TILT : Q;
  HEAD_LIGHT : bool;
  LIFT_HEIGHT : Q
}.

(** Lines 72-76. *)
Definition initial_teleop (K : Constants) : Teleop :=
  {| LIN_VELOCITY := 0; ANG_VELOCITY := 0;
     HEAD_TILT :=
       (MAX_HEAD_ANGLE_radians K - MIN_HEAD_ANGLE_radians K) * (1 # 10);
     HEAD_LIGHT := false;
     LIFT_HEIGHT := MIN_LIFT_HEIGHT_mm K |}.

(** The calls made on the robot client, recorded in order. *)
Inductive robot_call : Type :=
| drive_wheels (lwheel_speed rwheel_speed : Q)
| set_head_angle (angle : Q)
| set_lift_height (height : Q)
| set_head_light (enable : bool).

(** What one turn of the loop does after reading a key: leave the loop
    ([break]), or carry on with a new state after some calls. *)
Inductive turn : Type :=
| Break
| Continue (st : Teleop) (calls : list robot_call).

(** [ord(c)]. *)
Definition ord (c : Ascii.ascii) : Z := Z.of_N (Ascii.N_of_ascii c).

Definition key_in (key : Z) (keys : list Z) : bool :=
  existsb (Z.eqb key) keys.

(** Lines 221-226: the wheel speeds for the current velocities. *)
Definition wheel_speeds (K : Constants) (lin ang : Q) : outcome (Q * Q) :=
  h <- Py.float_div (TRACK_WIDTH_mm K * ang) 2 ;;
  let l_speed := Py.min (MAX_WHEEL_SPEED_mmps K) (lin - h) in
  h' <- Py.float_div (TRACK_WIDTH_mm K * ang) 2 ;;
  let r_speed := Py.min (MAX_WHEEL_SPEED_mmps K) (lin + h') in
  Returns (l_speed, r_speed).

(** Lines 193-268: one turn of the loop for the key read by
    [cv.waitKeyEx]. *)
Definition key_turn (K : Constants) (st : Teleop) (key : Z) : outcome turn :=
  if Z.eqb key (ord "q"%char) then Returns Break
  else if key_in key [ord "w"%char; ord "s"%char; ord "a"%char; ord "d"%char] then
    v <- (if Z.eqb key (ord "w"%char) then
            Returns (Py.min (MAX_WHEEL_SPEED_mmps K) (LIN_VELOCITY st + LIN_INC),
                     ANG_VELOCITY st)
          else if Z.eqb key (ord "s"%char) then
            Returns (Py.max (- MAX_WHEEL_SPEED_mmps K) (LIN_VELOCITY st - LIN_INC),
                     ANG_VELOCITY st)
          else if Z.eqb key (ord "a"%char) then
            b <- Py.float_div (MAX_WHEEL_SPEED_mmps K) (TRACK_WIDTH_mm K) ;;
            Returns (LIN_VELOCITY st, Py.min b (ANG_VELOCITY st + ANG_INC K))
          else if Z.eqb key (ord "d"%char) then
            b <- Py.float_div (- MAX_WHEEL_SPEED_mmps K) (TRACK_WIDTH_mm K) ;;
            Returns (LIN_VELOCITY st, Py.max b (ANG_VELOCITY st - ANG_INC K))
          else Returns (LIN_VELOCITY st, ANG_VELOCITY st)) ;;
    w <- wheel_speeds K (fst v) (snd v) ;;
    Returns (Continue
               {| LIN_VELOCITY := fst v; ANG_VELOCITY := snd v;
                  HEAD_TILT := HEAD_TILT st; HEAD_LIGHT := HEAD_LIGHT st;
                  LIFT_HEIGHT := LIFT_HEIGHT st |}
               [drive_wheels (fst w) (snd w)])
  else if key_in key [ord "k"%char; ord "j"%char] then
    let tilt :=
      if Z.eqb key (ord "k"%char) then
        Py.min (MAX_HEAD_ANGLE_radians K) (HEAD_TILT st + HEAD_INC K)
      else if Z.eqb key (ord "j"%char) then
        Py.max (MIN_HEAD_ANGLE_radians K) (HEAD_TILT st - HEAD_INC K)
      else HEAD_TILT st in
    Returns (Continue
               {| LIN_VELOCITY := LIN_VELOCITY st;
                  ANG_VELOCITY := ANG_VELOCITY st;
                  HEAD_TILT := tilt; HEAD_LIGHT := HEAD_LIGHT st;
                  LIFT_HEIGHT := LIFT_HEIGHT st |}
               [set_head_angle tilt])
  else if key_in key [ord "n"%char; ord "m"%char] then
    let height :=
      if Z.eqb key (ord "m"%char) then
        Py.min (MAX_LIFT_HEIGHT_mm K) (LIFT_HEIGHT st + LIFT_INC)
      else if Z.eqb key (ord "n"%char) then
        Py.max (MIN_LIFT_HEIGHT_mm K) (LIFT_HEIGHT st - LIFT_INC)
      else LIFT_HEIGHT st in
    Returns (Continue
               {| LIN_VELOCITY := LIN_VELOCITY st;
                  ANG_VELOCITY := ANG_VELOCITY st;
                  HEAD_TILT := HEAD_TILT st; HEAD_LIGHT := HEAD_LIGHT st;
                  LIFT_HEIGHT := height |}
               [set_lift_height height])
  else if Z.eqb key (ord "l"%char) then
    Returns (Continue
               {| LIN_VELOCITY := LIN_VELOCITY st;
                  ANG_VELOCITY := ANG_VELOCITY st;
                  HEAD_TILT := HEAD_TILT st;
                  HEAD_LIGHT := negb (HEAD_LIGHT st);
                  LIFT_HEIGHT := LIFT_HEIGHT st |}
               [set_head_light (negb (HEAD_LIGHT st))])
  else Returns (Continue st []).

(** Lines 173-268: the loop, run on the keys read one after the other; it
    yields the state and the calls made when the keys run out or the loop is
    left. *)
Fixpoint run_keys (K : Constants) (st : Teleop) (keys : list Z)
  : outcome (Teleop * list robot_call) :=
  match keys with
  | [] => Returns (st, [])
  | key :: rest =>
      t <- key_turn K st key ;;
      match t with
      | Break => Returns (st, [])
      | Continue st' calls =>
          r <- run_keys K st' rest ;;
          Returns (fst r, calls ++ snd r)
      end
  end.

(** The constants make sense: a positive track width, non-negative maximum
    speed and increments, and minima below maxima. *)
Definition sensible (K : Constants) : Prop :=
  0 <= MAX_WHEEL_SPEED_mmps K /\ 0 < TRACK_WIDTH_mm K /\
  0 <= ANG_INC K /\ 0 <= HEAD_INC K /\
  MIN_HEAD_ANGLE_radians K <= MAX_HEAD_ANGLE_radians K /\
  MIN_LIFT_HEIGHT_mm K <= MAX_LIFT_HEIGHT_mm K.

(** The velocities, the head tilt and the lift height are within their
    limits. *)
Definition teleop_in_range (K : Constants) (st : Teleop) : Prop :=
  within (MAX_WHEEL_SPEED_mmps K) (LIN_VELOCITY st) /\
  within (MAX_WHEEL_SPEED_mmps K / TRACK_WIDTH_mm K) (ANG_VELOCITY st) /\
  MIN_HEAD_ANGLE_radians K <= HEAD_TILT st /\
  HEAD_TILT st <= MAX_HEAD_ANGLE_radians K /\
  MIN_LIFT_HEIGHT_mm K <= LIFT_HEIGHT st /\
  LIFT_HEIGHT st <= MAX_LIFT_HEIGHT_mm K.

(** A call whose arguments respect the limits; a wheel speed may go down to
    one and a half times the maximum speed, backwards. *)
Definition call_in_range (K : Constants) (c : robot_call) : Prop :=
  match c with
  | drive_wheels l r =>
      - (3 # 2) * MAX_WHEEL_SPEED_mmps K <= l /\ l <= MAX_WHEEL_SPEED_mmps K /\
      - (3 # 2) * MAX_WHEEL_SPEED_mmps K <= r /\ r <= MAX_WHEEL_SPEED_mmps K
  | set_head_angle a =>
      MIN_HEAD_ANGLE_radians K <= a /\ a <= MAX_HEAD_ANGLE_radians K
  | set_lift_height h =>
      MIN_LIFT_HEIGHT_mm K <= h /\ h <= MAX_LIFT_HEIGHT_mm K
  | set_head_light _ => True
  end.

(** ** Binary64 arithmetic

    The definitions above read each operator as the exact one.  Python
    computes on binary64 floats: the result of [+], [-], [*] and [/] is the
    exact result rounded to the nearest float, and [x % y] is C's [fmod]
    (exact, with the sign of [x]) to which [y] is added, with rounding, when
    its sign differs from that of [y].  Two further readings of the same
    code make this explicit.

    - [Fl] rounds the result of every operator with a function [rnd] of
      which only the laws of [Rounding] are known.  Round-to-nearest on
      binary64 obeys them as long as nothing overflows, so what is proved
      of [Fl] for every [Rounding] holds of the code as Python runs it on
      finite floats; the exact reading is the instance where [rnd] is the
      identity.
    - [F64] is the code on the kernel's binary64 floats; it runs the code on
      concrete inputs. *)

Class Rounding : Type := {
  rnd : Q -> Q;
  (** the rounded value depends on the number, not on its representation *)
  rnd_compat : forall x y, x == y -> rnd x == rnd y;
  (** rounding is monotone *)
  rnd_monotone : forall x y, x <= y -> rnd x <= rnd y;
  (** integers up to [2^53] scaled by a power of two down to [2^-1074] are
      floats *)
  rnd_dyadic : forall (n : Z) (k : nat),
      (Z.abs n <= 2 ^ 53)%Z -> (k <= 1074)%nat ->
      rnd (inject_Z n / inject_Z (2 ^ Z.of_nat k))
      == inject_Z n / inject_Z (2 ^ Z.of_nat k);
  (** rounding commutes with negation *)
  rnd_opp : forall x, rnd (- x) == - rnd x;
  (** rounding at most doubles a non-negative number *)
  rnd_relative : forall x, 0 <= x -> rnd x <= 2 * x;
  (** the double of a float is a float *)
  rnd_double : forall x, rnd x == x -> rnd (2 * x) == 2 * x
}.

Module Fl.
Section Rounded.

Context {R : Rounding}.

Definition add (x y : Q) : Q := rnd (x + y).
Definition sub (x y : Q) : Q := rnd (x - y).
Definition mul (x y : Q) : Q := rnd (x * y).

(** [x / y]. *)
Definition float_div (x y : Q) : outcome Q :=
  if Py.eqb y 0 then Raises ZeroDivisionError
  else Returns (rnd (x / y)).

(** Truncation toward zero. *)
Definition trunc (q : Q) : Z :=
  if Py.ltb q 0 then (- Qfloor (- q))%Z else Qfloor q.

(** C's [fmod(x, y)]: the remainder of the truncated division, exact. *)
Definition c_fmod (x y : Q) : Q := x - y * inject_Z (trunc (x / y)).

(** The value of [x % y] for [y] not zero (CPython's [float_rem]):
    [mod = fmod(x, y)]; if [mod] is not zero and its sign differs from that
    of [y] then [mod += y]; a zero [mod] is returned as zero. *)
Definition mod_value (x y : Q) : Q :=
  let m := c_fmod x y in
  if negb (Py.eqb m 0) then
    if xorb (Py.ltb y 0) (Py.ltb m 0) then add m y else m
  else 0.

(** [x % y]. *)
Definition float_mod (x y : Q) : outcome Q :=
  if Py.eqb y 0 then Raises ZeroDivisionError
  else Returns (mod_value x y).

(** test-connection.py, line 307. *)
Definition normalize_theta (theta : Q) : outcome Q :=
  m <- float_mod (add theta 180) 360 ;;
  Returns (sub m 180).

(** Line 310. *)
Definition compute_v_a (r theta : Q) : outcome Q :=
  m <- float_mod theta 90 ;;
  float_div (mul r (sub 45 m)) 45.

(** Line 311. *)
Definition compute_v_b (r v_a : Q) : Q :=
  Py.min3 100 (add (mul 2 r) v_a) (sub (mul 2 r) v_a).

(** Lines 296-319; the clamp, the comparisons and the negations of the
    quadrant dispatch are exact on floats. *)
Definition _get_motor_thrust (r theta : Q) : outcome (Q * Q) :=
  theta <- normalize_theta theta ;;
  let r := clamp_throttle r in
  v_a <- compute_v_a r theta ;;
  let v_b := compute_v_b r v_a in
  Returns (assign_quadrant theta v_a v_b).

(** Scripts/rc-wireless-opencv.py, lines 90-105. *)
Definition translate_speed (fwd turn : Q) : outcome (Q * Q) :=
  if Py.eqb fwd 0 && Py.eqb turn 0 then
    Returns (0, 0)
  else if Py.eqb fwd 0 then
    Returns (mul turn max_wheel_speed, mul (- turn) max_wheel_speed)
  else if Py.eqb turn 0 then
    Returns (mul fwd max_wheel_speed, mul fwd max_wheel_speed)
  else
    let avg_speed := mul fwd max_wheel_speed in
    turn_speed <- float_div (mul turn max_wheel_speed) 2 ;;
    Returns (add avg_speed turn_speed, sub avg_speed turn_speed).

(** test-connection.py, lines 409-413. *)
Definition polar_of_sticks (self : RCApp) : Q * Q :=
  let r := speed self in
  let theta := mul (- steering self) 90 in
  if Py.ltb r 0 then (mul r (- (1)), add theta 180) else (r, theta).

(** Lines 408-417. *)
Definition update_wheels (self : RCApp) : outcome (list call) :=
  let r_theta := polar_of_sticks self in
  p <- _get_motor_thrust (fst r_theta) (snd r_theta) ;;
  Returns [CallDriveWheels (fst p) (snd p)].

(** Lines 221-226. *)
Definition wheel_speeds (K : Constants) (lin ang : Q) : outcome (Q * Q) :=
  h <- float_div (mul (TRACK_WIDTH_mm K) ang) 2 ;;
  let l_speed := Py.min (MAX_WHEEL_SPEED_mmps K) (sub lin h) in
  h' <- float_div (mul (TRACK_WIDTH_mm K) ang) 2 ;;
  let r_speed := Py.min (MAX_WHEEL_SPEED_mmps K) (add lin h') in
  Returns (l_speed, r_speed).

(** The values the steps of [_get_motor_thrust] return. *)
Definition normalized (theta : Q) : Q :=
  sub (mod_value (add theta 180) 360) 180.

Definition v_a_of (r theta : Q) : Q :=
  rnd (mul r (sub 45 (mod_value theta 90)) / 45).

Definition thrust_of (r theta : Q) : Q * Q :=
  assign_quadrant theta (v_a_of r theta) (compute_v_b r (v_a_of r theta)).

End Rounded.
End Fl.

Module F64.

Local Open Scope float_scope.

(** C's [fmod(x, y)] on finite floats, [y] not zero: the exact remainder of
    the truncated division, computed on the integer mantissas; it has the
    sign of [x]. *)
Definition c_fmod (x y : float) : float :=
  match Prim2SF x, Prim2SF y with
  | S754_finite sx mx ex, S754_finite _ my ey =>
      let e := Z.min ex ey in
      let X := (Z.pos mx * 2 ^ (ex - e))%Z in
      let Y := (Z.pos my * 2 ^ (ey - e))%Z in
      match Z.rem X Y with
      | Zpos p | Zneg p => SF2Prim (S754_finite sx p e)
      | Z0 => if sx then neg_zero else zero
      end
  | S754_zero _, S754_finite _ _ _ => x
  | _, _ => nan
  end.

(** [x % y] for [y] not zero (CPython's [float_rem]). *)
Definition float_mod (x y : float) : float :=
  let m := c_fmod x y in
  if negb (m =? 0) then
    if xorb (y <? 0) (m <? 0) then m + y else m
  else abs zero.

(** [min(a, b)] and [max(a, b)]. *)
Definition min (a b : float) : float := if b <? a then b else a.
Definition max (a b : float) : float := if a <? b then b else a.

(** test-connection.py, line 307. *)
Definition normalize_theta (theta : float) : float :=
  float_mod (theta + 180) 360 - 180.

(** Line 309. *)
Definition clamp_throttle (r : float) : float := min (max 0 r) 100.

(** Line 310. *)
Definition compute_v_a (r theta : float) : float :=
  r * (45 - float_mod theta 90) / 45.

(** Line 311. *)
Definition compute_v_b (r v_a : float) : float :=
  min (min 100 (2 * r + v_a)) (2 * r - v_a).

(** Lines 296-319. *)
Definition _get_motor_thrust (r theta : float) : float * float :=
  let theta := normalize_theta theta in
  let r := clamp_throttle r in
  let v_a := compute_v_a r theta in
  let v_b := compute_v_b r v_a in
  if theta <? -90 then (- v_b, - v_a)
  else if theta <? 0 then (- v_a, v_b)
  else if theta <? 90 then (v_b, v_a)
  else (v_a, - v_b).

End F64.

(** ** Facts about the primitives *)

Lemma ltb_true_iff (a b : Q) : Py.ltb a b = true <-> a < b.
Proof.
  unfold Py.ltb. rewrite negb_true_iff.
  destruct (Qle_bool b a) eqn:E.
  - apply Qle_bool_iff in E. split; [discriminate | intros H; lra].
  - split; [intros _ | reflexivity].
    apply Qnot_le_lt. intros H. apply Qle_bool_iff in H. congruence.
Qed.

Lemma ltb_false_iff (a b : Q) : Py.ltb a b = false <-> b <= a.
Proof.
  destruct (Py.ltb a b) eqn:E.
  - apply ltb_true_iff in E. split; [discriminate | intros H; lra].
  - split; [intros _ | reflexivity].
    apply Qnot_lt_le. intros H. apply ltb_true_iff in H. congruence.
Qed.

Lemma eqb_true_iff (a b : Q) : Py.eqb a b = true <-> a == b.
Proof. unfold Py.eqb. apply Qeq_bool_iff. Qed.

Lemma eqb_false_iff (a b : Q) : Py.eqb a b = false <-> ~ a == b.
Proof.
  rewrite <- eqb_true_iff. destruct (Py.eqb a b); split; congruence.
Qed.

(** Case analysis on every comparison in the goal, each one turned into the
    order fact it decides. *)
Ltac no_test t :=
  lazymatch t with
  | context [Py.ltb _ _] => fail
  | context [Py.eqb _ _] => fail
  | _ => idtac
  end.

Ltac py_cases :=
  repeat match goal with
  | |- context [Py.ltb ?a ?b] =>
      no_test a; no_test b;
      let E := fresh "E" in
      destruct (Py.ltb a b) eqn:E;
      [apply ltb_true_iff in E | apply ltb_false_iff in E]
  | |- context [Py.eqb ?a ?b] =>
      no_test a; no_test b;
      let E := fresh "E" in
      destruct (Py.eqb a b) eqn:E;
      [apply eqb_true_iff in E | apply eqb_false_iff in E]
  end.

(** *** Floor and modulo *)

Lemma Qfloor_unique (z : Z) (x : Q) :
  inject_Z z <= x -> x < inject_Z z + 1 -> Qfloor x = z.
Proof.
  intros Hlo Hhi.
  pose proof (Qfloor_le x) as Flo. pose proof (Qlt_floor x) as Fhi.
  rewrite inject_Z_plus in Fhi. change (inject_Z 1) with 1 in Fhi.
  assert (H1 : inject_Z (Qfloor x) < inject_Z (z + 1)).
  { rewrite inject_Z_plus. change (inject_Z 1) with 1. lra. }
  assert (H2 : inject_Z z < inject_Z (Qfloor x + 1)).
  { rewrite inject_Z_plus. change (inject_Z 1) with 1. lra. }
  rewrite <- Zlt_Qlt in H1, H2. lia.
Qed.

Section Modulo.

Variable y : Q.
Hypothesis y_pos : 0 < y.

Lemma fmod_bounds (x : Q) : 0 <= Py.fmod x y /\ Py.fmod x y < y.
Proof.
  unfold Py.fmod.
  pose proof (Qfloor_le (x / y)) as Hlo. pose proof (Qlt_floor (x / y)) as Hhi.
  rewrite inject_Z_plus in Hhi. change (inject_Z 1) with 1 in Hhi.
  assert (Hx : x == y * (x / y)) by (field; lra).
  set (f := inject_Z (Qfloor (x / y))) in *.
  set (q := x / y) in *.
  split; rewrite Hx at 1; nra.
Qed.

(** The remainder is determined by any decomposition [x = y*k + m] with
    [0 <= m < y]. *)
Lemma fmod_unique (x m : Q) (k : Z) :
  x == y * inject_Z k + m -> 0 <= m -> m < y -> Py.fmod x y == m.
Proof.
  intros Hx Hlo Hhi. unfold Py.fmod.
  assert (Hq : x / y == inject_Z k + m / y).
  { rewrite Hx. field. lra. }
  assert (Hm0 : 0 <= m / y).
  { apply Qle_shift_div_l; [exact y_pos | lra]. }
  assert (Hm1 : m / y < 1).
  { apply Qlt_shift_div_r; [exact y_pos | lra]. }
  rewrite (Qfloor_unique k (x / y)) by lra.
  lra.
Qed.

Lemma fmod_small (x : Q) : 0 <= x -> x < y -> Py.fmod x y == x.
Proof.
  intros Hlo Hhi. apply (fmod_unique x x 0); [| exact Hlo | exact Hhi].
  change (inject_Z 0) with 0. lra.
Qed.

Lemma fmod_decompose (x : Q) :
  x == y * inject_Z (Qfloor (x / y)) + Py.fmod x y.
Proof. unfold Py.fmod. lra. Qed.

Lemma fmod_period (x : Q) : Py.fmod (x + y) y == Py.fmod x y.
Proof.
  destruct (fmod_bounds x) as [Hlo Hhi].
  apply (fmod_unique (x + y) (Py.fmod x y) (Qfloor (x / y) + 1));
    [| exact Hlo | exact Hhi].
  rewrite inject_Z_plus. change (inject_Z 1) with 1.
  pose proof (fmod_decompose x) as Hx.
  set (f := inject_Z (Qfloor (x / y))) in *. 
  set (m := Py.fmod x y) in *. lra.
Qed.

End Modulo.

#[export] Instance fmod_compat : Proper (Qeq ==> Qeq ==> Qeq) Py.fmod.
Proof.
  intros x x' Hx y y' Hy. unfold Py.fmod.
  assert (Hq : x / y == x' / y') by (rewrite Hx, Hy; reflexivity).
  rewrite (Qfloor_comp _ _ Hq), Hx, Hy. reflexivity.
Qed.

#[export] Instance ltb_compat : Proper (Qeq ==> Qeq ==> eq) Py.ltb.
Proof.
  intros a a' Ha b b' Hb. unfold Py.ltb. rewrite Ha, Hb. reflexivity.
Qed.

#[export] Instance eqb_compat : Proper (Qeq ==> Qeq ==> eq) Py.eqb.
Proof.
  intros a a' Ha b b' Hb. unfold Py.eqb. rewrite Ha, Hb. reflexivity.
Qed.

(** *** [min] and [max] *)

#[export] Instance min_compat : Proper (Qeq ==> Qeq ==> Qeq) Py.min.
Proof.
  intros a a' Ha b b' Hb. unfold Py.min.
  rewrite (ltb_compat _ _ Hb _ _ Ha). destruct (Py.ltb b' a'); assumption.
Qed.

#[export] Instance max_compat : Proper (Qeq ==> Qeq ==> Qeq) Py.max.
Proof.
  intros a a' Ha b b' Hb. unfold Py.max.
  rewrite (ltb_compat _ _ Ha _ _ Hb). destruct (Py.ltb a' b'); assumption.
Qed.

#[export] Instance min3_compat : Proper (Qeq ==> Qeq ==> Qeq ==> Qeq) Py.min3.
Proof.
  intros a a' Ha b b' Hb c c' Hc. unfold Py.min3. rewrite Ha, Hb, Hc. reflexivity.
Qed.

Lemma min_glb (a b : Q) :
  Py.min a b <= a /\ Py.min a b <= b /\ (Py.min a b == a \/ Py.min a b == b).
Proof. unfold Py.min. py_cases; repeat split; try lra; auto with qarith. Qed.

Lemma min3_glb (a b c : Q) :
  Py.min3 a b c <= a /\ Py.min3 a b c <= b /\ Py.min3 a b c <= c /\
  (Py.min3 a b c == a \/ Py.min3 a b c == b \/ Py.min3 a b c == c).
Proof.
  unfold Py.min3.
  destruct (min_glb (Py.min a b) c) as (H1 & H2 & H3).
  destruct (min_glb a b) as (H4 & H5 & H6).
  repeat split; lra.
Qed.

Lemma clamp_throttle_range (r : Q) :
  0 <= clamp_throttle r /\ clamp_throttle r <= 100.
Proof. unfold clamp_throttle, Py.min, Py.max. py_cases; lra. Qed.

Lemma clamp_throttle_id (r : Q) :
  0 <= r -> r <= 100 -> clamp_throttle r == r.
Proof. intros H0 H1. unfold clamp_throttle, Py.min, Py.max. py_cases; lra. Qed.


(** *** The steps return *)

Lemma normalize_theta_returns (theta : Q) :
  normalize_theta theta = Returns (normalized theta).
Proof. reflexivity. Qed.

Lemma compute_v_a_returns (r theta : Q) :
  compute_v_a r theta = Returns (v_a_of r theta).
Proof. reflexivity. Qed.

Lemma get_motor_thrust_returns (r theta : Q) :
  _get_motor_thrust r theta =
  Returns (thrust_of (clamp_throttle r) (normalized theta)).
Proof. reflexivity. Qed.

Lemma normalized_range (theta : Q) :
  -180 <= normalized theta /\ normalized theta < 180.
Proof.
  unfold normalized.
  destruct (fmod_bounds 360 ltac:(lra) (theta + 180)) as [Hlo Hhi]. lra.
Qed.

Lemma v_a_of_within (r theta : Q) :
  0 <= r -> within r (v_a_of r theta).
Proof.
  intros Hr. unfold within, v_a_of.
  destruct (fmod_bounds 90 ltac:(lra) theta) as [Hlo Hhi].
  set (m := Py.fmod theta 90) in *.
  unfold Qdiv. change (/ 45) with (1 # 45). split; nra.
Qed.

Lemma compute_v_b_range (r v_a : Q) :
  0 <= r -> r <= 100 -> within r v_a ->
  Qabs v_a <= compute_v_b r v_a /\ 0 <= compute_v_b r v_a /\
  compute_v_b r v_a <= 100.
Proof.
  intros H0 H1 [Hlo Hhi]. unfold compute_v_b.
  destruct (min3_glb 100 (2 * r + v_a) (2 * r - v_a)) as (M1 & M2 & M3 & M4).
  set (b := Py.min3 _ _ _) in *.
  split; [apply Qabs_Qle_condition |]; lra.
Qed.

(** *** Results are insensitive to the representation of a rational *)

#[export] Instance pair_eq_equiv : Equivalence pair_eq.
Proof.
  split.
  - intros p. split; reflexivity.
  - intros p q [H1 H2]. split; symmetry; assumption.
  - intros p q u [H1 H2] [H3 H4]. split; etransitivity; eassumption.
Qed.

#[export] Instance normalized_compat : Proper (Qeq ==> Qeq) normalized.
Proof. intros t t' Ht. unfold normalized. rewrite Ht. reflexivity. Qed.

#[export] Instance v_a_of_compat : Proper (Qeq ==> Qeq ==> Qeq) v_a_of.
Proof.
  intros r r' Hr t t' Ht. unfold v_a_of. rewrite Hr, Ht. reflexivity.
Qed.

#[export] Instance compute_v_b_compat : Proper (Qeq ==> Qeq ==> Qeq) compute_v_b.
Proof.
  intros r r' Hr a a' Ha. unfold compute_v_b. rewrite Hr, Ha. reflexivity.
Qed.

#[export] Instance assign_quadrant_compat :
  Proper (Qeq ==> Qeq ==> Qeq ==> pair_eq) assign_quadrant.
Proof.
  intros t t' Ht a a' Ha b b' Hb. unfold assign_quadrant.
  rewrite !(ltb_compat _ _ Ht _ _ (Qeq_refl _)).
  py_cases; split; simpl; rewrite ?Ha, ?Hb; reflexivity.
Qed.

#[export] Instance thrust_of_compat : Proper (Qeq ==> Qeq ==> pair_eq) thrust_of.
Proof.
  intros r r' Hr t t' Ht. unfold thrust_of.
  apply assign_quadrant_compat; [exact Ht | |]; rewrite Hr, Ht; reflexivity.
Qed.

(** *** The source against the specification's wording *)

Lemma min3_reference (a b c : Q) : Py.min3 a b c == Qmin a (Qmin b c).
Proof.
  destruct (min3_glb a b c) as (H1 & H2 & H3 & H4).
  destruct (Q.min_spec b c) as [[Hbc Ebc] | [Hbc Ebc]];
    destruct (Q.min_spec a (Qmin b c)) as [[Ha Ea] | [Ha Ea]];
    rewrite Ea; rewrite Ebc in *; lra.
Qed.



(** Which return statement fires, by the range of the normalized angle. *)
Lemma assign_quadrant_cases (theta a b : Q) :
  (theta < -90 -> assign_quadrant theta a b = (- b, - a)) /\
  (-90 <= theta -> theta < 0 -> assign_quadrant theta a b = (- a, b)) /\
  (0 <= theta -> theta < 90 -> assign_quadrant theta a b = (b, a)) /\
  (90 <= theta -> assign_quadrant theta a b = (a, - b)).
Proof.
  unfold assign_quadrant.
  repeat split; intros; py_cases; try reflexivity; lra.
Qed.


(** *** Mirroring the steering angle *)

#[export] Instance swap_compat : Proper (pair_eq ==> pair_eq) swap.
Proof. intros p q [H1 H2]. split; assumption. Qed.

Lemma compute_v_b_sign (r x y : Q) :
  x == y \/ x == - y -> compute_v_b r x == compute_v_b r y.
Proof.
  intros H. unfold compute_v_b.
  destruct (min3_glb 100 (2 * r + x) (2 * r - x)) as (A1 & A2 & A3 & A4).
  destruct (min3_glb 100 (2 * r + y) (2 * r - y)) as (B1 & B2 & B3 & B4).
  lra.
Qed.

Lemma compute_v_b_full (r : Q) :
  0 <= r -> r <= 100 -> compute_v_b r r == r.
Proof.
  intros H0 H1. unfold compute_v_b.
  destruct (min3_glb 100 (2 * r + r) (2 * r - r)) as (A1 & A2 & A3 & A4).
  lra.
Qed.

(** Strictly inside a quadrant the mirrored angle negates [v_a]. *)
Lemma v_a_of_mirror_interior (r n a : Q) (k : Z) :
  n == 90 * inject_Z k + a -> 0 < a -> a < 90 ->
  v_a_of r (- n) == - v_a_of r n.
Proof.
  intros Hn Ha0 Ha1.
  assert (E : Py.fmod n 90 == a).
  { apply (fmod_unique 90 ltac:(lra) n a k); lra. }
  assert (E' : Py.fmod (- n) 90 == 90 - a).
  { apply (fmod_unique 90 ltac:(lra) (- n) (90 - a) (- k - 1)); try lra.
    unfold Z.sub. rewrite inject_Z_plus, inject_Z_opp.
    change (inject_Z (- (1))) with (- (1)). lra. }
  unfold v_a_of. rewrite E, E'. field.
Qed.

(** On a quadrant boundary both the angle and its mirror image give
    [v_a = r]. *)
Lemma v_a_of_mirror_boundary (r n : Q) (k : Z) :
  n == 90 * inject_Z k -> v_a_of r n == r /\ v_a_of r (- n) == r.
Proof.
  intros Hn.
  assert (E : Py.fmod n 90 == 0).
  { apply (fmod_unique 90 ltac:(lra) n 0 k); lra. }
  assert (E' : Py.fmod (- n) 90 == 0).
  { apply (fmod_unique 90 ltac:(lra) (- n) 0 (- k)); try lra.
    rewrite inject_Z_opp. lra. }
  unfold v_a_of. rewrite E, E'. split; field.
Qed.

Section Mirror.

Variables r n : Q.
Hypothesis r_lo : 0 <= r.
Hypothesis r_hi : r <= 100.

Lemma thrust_of_mirror_interior (a : Q) (k : Z) :
  n == 90 * inject_Z k + a -> 0 < a -> a < 90 ->
  -180 <= n -> n < 180 ->
  -180 < n /\ pair_eq (thrust_of r (- n)) (swap (thrust_of r n)).
Proof.
  intros Hn Ha0 Ha1 N0 N1.
  pose proof (v_a_of_mirror_interior r n a k Hn Ha0 Ha1) as Hm.
  assert (Hb : compute_v_b r (v_a_of r (- n)) == compute_v_b r (v_a_of r n)).
  { apply compute_v_b_sign. right. exact Hm. }
  assert (Hk : (k = -2 \/ k = -1 \/ k = 0 \/ k = 1)%Z).
  { assert (H1 : inject_Z (-3) < inject_Z k).
    { change (inject_Z (-3)) with (-3). lra. }
    assert (H2 : inject_Z k < inject_Z 2).
    { change (inject_Z 2) with 2. lra. }
    rewrite <- Zlt_Qlt in H1, H2. lia. }
  set (va := v_a_of r n) in *. set (va' := v_a_of r (- n)) in *.
  set (b := compute_v_b r va) in *. set (b' := compute_v_b r va') in *.
  unfold thrust_of, swap, assign_quadrant. fold va. fold va'. fold b. fold b'.
  destruct Hk as [-> | [-> | [-> | ->]]]; unfold inject_Z in Hn;
    (split; [lra |]);
    py_cases; try lra; split; cbn [fst snd]; lra.
Qed.

Lemma thrust_of_mirror_boundary (k : Z) :
  n == 90 * inject_Z k -> -180 <= n -> n < 180 ->
  exists m, (n == -180 /\ m == n \/ -180 < n /\ m == - n) /\
            pair_eq (thrust_of r m) (swap (thrust_of r n)).
Proof.
  intros Hn N0 N1.
  destruct (v_a_of_mirror_boundary r n k Hn) as [Ha Ha'].
  pose proof (compute_v_b_full r r_lo r_hi) as Hf.
  assert (Hb : compute_v_b r (v_a_of r n) == r) by (rewrite Ha; exact Hf).
  assert (Hb' : compute_v_b r (v_a_of r (- n)) == r) by (rewrite Ha'; exact Hf).
  assert (Hk : (k = -2 \/ k = -1 \/ k = 0 \/ k = 1)%Z).
  { assert (H1 : inject_Z (-3) < inject_Z k).
    { change (inject_Z (-3)) with (-3). lra. }
    assert (H2 : inject_Z k < inject_Z 2).
    { change (inject_Z 2) with 2. lra. }
    rewrite <- Zlt_Qlt in H1, H2. lia. }
  set (va := v_a_of r n) in *. set (va' := v_a_of r (- n)) in *.
  set (b := compute_v_b r va) in *. set (b' := compute_v_b r va') in *.
  destruct Hk as [-> | Hk].
  - exists n. split; [left; unfold inject_Z in Hn; split; lra |].
    unfold thrust_of, swap, assign_quadrant. fold va. fold b.
    unfold inject_Z in Hn. py_cases; try lra; split; cbn [fst snd]; lra.
  - exists (- n).
    unfold thrust_of, swap, assign_quadrant. fold va. fold va'. fold b. fold b'.
    destruct Hk as [-> | [-> | ->]]; unfold inject_Z in Hn;
      (split; [right; lra |]);
      py_cases; try lra; split; cbn [fst snd]; lra.
Qed.

(** The normalized angle [n] and the normalized mirror image [m]: both
    are -180 at the seam, otherwise [m = -n]; the thrust pairs are
    swapped. *)
Lemma thrust_of_mirror :
  -180 <= n -> n < 180 ->
  exists m, (n == -180 /\ m == n \/ -180 < n /\ m == - n) /\
            pair_eq (thrust_of r m) (swap (thrust_of r n)).
Proof.
  intros N0 N1.
  destruct (fmod_bounds 90 ltac:(lra) n) as [A0 A1].
  pose proof (fmod_decompose 90 n) as Hn.
  destruct (Qlt_le_dec 0 (Py.fmod n 90)) as [Hpos | Hz].
  - exists (- n).
    destruct (thrust_of_mirror_interior _ _ Hn Hpos A1 N0 N1) as [Hlt Hp].
    split; [right; split; [exact Hlt | reflexivity] | exact Hp].
  - apply (thrust_of_mirror_boundary (Qfloor (n / 90))); try assumption.
    rewrite Hn at 1. lra.
Qed.

End Mirror.

Lemma normalized_mirror (theta : Q) :
  normalized theta == -180 /\ normalized (- theta) == -180 \/
  -180 < normalized theta /\ normalized (- theta) == - normalized theta.
Proof.
  unfold normalized.
  destruct (fmod_bounds 360 ltac:(lra) (theta + 180)) as [M0 M1].
  pose proof (fmod_decompose 360 (theta + 180)) as Ht.
  set (k := Qfloor ((theta + 180) / 360)) in *.
  set (m := Py.fmod (theta + 180) 360) in *.
  destruct (Qlt_le_dec 0 m) as [Hpos | Hz].
  - right. split; [lra |].
    rewrite (fmod_unique 360 ltac:(lra) (- theta + 180) (360 - m) (- k)); try lra.
    rewrite inject_Z_opp. lra.
  - left. split; [lra |].
    rewrite (fmod_unique 360 ltac:(lra) (- theta + 180) 0 (- k + 1)); try lra.
    rewrite inject_Z_plus, inject_Z_opp. change (inject_Z 1) with 1. lra.
Qed.

(** Mirror symmetry holds at every angle, not only at the sampled ones. *)
Lemma get_motor_thrust_mirror (t theta : Q) :
  exists p,
    _get_motor_thrust t theta = Returns p /\
    agree pair_eq (_get_motor_thrust t (- theta)) (Returns (swap p)).
Proof.
  rewrite !get_motor_thrust_returns.
  exists (thrust_of (clamp_throttle t) (normalized theta)).
  split; [reflexivity |]. constructor.
  destruct (clamp_throttle_range t) as [C0 C1].
  destruct (normalized_range theta) as [N0 N1].
  destruct (thrust_of_mirror _ (normalized theta) C0 C1 N0 N1) as (m & Hm & Hp).
  rewrite <- Hp. apply thrust_of_compat; [reflexivity |].
  destruct (normalized_mirror theta) as [[E1 E2] | [E1 E2]]; lra.
Qed.

(** ** The arcade-drive mapper *)

(** C1 (fails on the code): at full deflection of both axes,
    [translate_speed(1.0, 1.0)], the blended branch returns
    [(225.0, 75.0)]; the left wheel speed exceeds [max_wheel_speed],
    against the range announced in the comment above the function. *)
Theorem translate_speed_full_deflection :
  exists left right,
    translate_speed 1 1 = Returns (left, right) /\
    left == 225 /\ right == 75 /\ max_wheel_speed < left.
Proof.
  exists (450 # 2), (150 # 2). repeat split; reflexivity.
Qed.

(** What the blended branch does guarantee on [[-1, 1]]: one and a half
    times [max_wheel_speed]. *)
Lemma translate_speed_blended_bound (fwd turn : Q) :
  within 1 fwd -> within 1 turn ->
  exists left right,
    translate_speed fwd turn = Returns (left, right) /\
    within (3 / 2 * max_wheel_speed) left /\
    within (3 / 2 * max_wheel_speed) right.
Proof.
  unfold within, translate_speed, max_wheel_speed. intros [F0 F1] [T0 T1].
  py_cases; simpl; eexists; eexists; (split; [reflexivity |]);
    unfold Qdiv; change (/ 2) with (1 # 2); change (/ 2) with (1 # 2);
    split; split; lra.
Qed.

(** C4: [translate_speed] computes the four-case reference algorithm at
    [max_speed = max_wheel_speed], and maps the four unit inputs to
    [(150,150)], [(-150,-150)], [(150,-150)] and [(-150,150)]. *)
Theorem translate_speed_reference :
  (forall fwd turn,
     agree pair_eq (translate_speed fwd turn)
                   (Returns (Reference.arcade fwd turn max_wheel_speed))) /\
  translate_speed 1 0 = Returns (150, 150) /\
  translate_speed (-1) 0 = Returns (-150, -150) /\
  translate_speed 0 1 = Returns (150, -150) /\
  translate_speed 0 (-1) = Returns (-150, 150).
Proof.
  split; [| repeat split; reflexivity].
  intros fwd turn. unfold translate_speed, Reference.arcade.
  destruct (Qeq_dec fwd 0) as [Hf | Hf]; destruct (Qeq_dec turn 0) as [Ht | Ht].
  - apply eqb_true_iff in Hf, Ht. rewrite Hf, Ht. simpl.
    constructor. split; reflexivity.
  - apply eqb_true_iff in Hf. apply eqb_false_iff in Ht. rewrite Hf, Ht. simpl.
    constructor. split; simpl; lra.
  - apply eqb_false_iff in Hf. apply eqb_true_iff in Ht. rewrite Hf, Ht. simpl.
    constructor. split; reflexivity.
  - apply eqb_false_iff in Hf, Ht. rewrite Hf, Ht. simpl.
    constructor. split; reflexivity.
Qed.

(** ** The throttle/steering mapper *)

(** Thanks to the clamp of line 309 the bound needs no assumption on the
    throttle. *)
Lemma get_motor_thrust_bounds_clamped (r theta : Q) :
  exists left right,
    _get_motor_thrust r theta = Returns (left, right) /\
    within 100 left /\ within 100 right.
Proof.
  rewrite get_motor_thrust_returns.
  destruct (clamp_throttle_range r) as [C0 C1].
  set (c := clamp_throttle r) in *. set (t := normalized theta).
  pose proof (v_a_of_within c t C0) as Ha.
  destruct (compute_v_b_range c _ C0 C1 Ha) as (Hab & Hb0 & Hb1).
  apply Qabs_Qle_condition in Hab. destruct Ha as [Ha0 Ha1].
  unfold thrust_of, assign_quadrant.
  set (a := v_a_of c t) in *. set (b := compute_v_b c a) in *.
  unfold within.
  py_cases; eexists; eexists; (split; [reflexivity |]); split; split; lra.
Qed.

(** C2: for a throttle in [[0, 100]] and any steering angle the call
    returns, and both thrusts lie in [[-100, 100]]. *)
Theorem get_motor_thrust_bounds (r theta : Q) :
  0 <= r -> r <= 100 ->
  exists left right,
    _get_motor_thrust r theta = Returns (left, right) /\
    within 100 left /\ within 100 right.
Proof. intros _ _. apply get_motor_thrust_bounds_clamped. Qed.

Lemma get_motor_thrust_bounds_witness :
  exists left right,
    _get_motor_thrust 50 30 = Returns (left, right) /\
    within 100 left /\ within 100 right.
Proof. apply (get_motor_thrust_bounds 50 30); unfold Qle; simpl; lia. Defined.



(** The intermediate values of a call, for any input: the clamped throttle,
    the normalized angle, [v_a] and [v_b], and the pair built from them. *)
Lemma get_motor_thrust_steps (r0 theta0 : Q) :
  exists theta v_a,
    normalize_theta theta0 = Returns theta /\
    compute_v_a (clamp_throttle r0) theta = Returns v_a /\
    v_a == Reference.v_a (clamp_throttle r0) theta /\
    within (clamp_throttle r0) v_a /\
    compute_v_b (clamp_throttle r0) v_a == Reference.v_b (clamp_throttle r0) v_a /\
    _get_motor_thrust r0 theta0 =
      Returns (assign_quadrant theta v_a (compute_v_b (clamp_throttle r0) v_a)).
Proof.
  exists (normalized theta0), (v_a_of (clamp_throttle r0) (normalized theta0)).
  repeat split; try reflexivity;
    try apply v_a_of_within; try apply clamp_throttle_range.
  apply min3_reference.
Qed.



(** C6: zero input gives exactly zero output: [translate_speed(0.0, 0.0)]
    returns [(0.0, 0.0)], and [_get_motor_thrust(0, theta)] returns a pair
    equal to [(0.0, 0.0)] for every angle. *)
Theorem zero_input_zero_output :
  translate_speed 0 0 = Returns (0, 0) /\
  forall theta, agree pair_eq (_get_motor_thrust 0 theta) (Returns (0, 0)).
Proof.
  split; [reflexivity |]. intros theta.
  rewrite get_motor_thrust_returns. constructor.
  change (clamp_throttle 0) with 0.
  set (t := normalized theta).
  assert (Ha : v_a_of 0 t == 0) by (unfold v_a_of, Qdiv; lra).
  assert (Hb : compute_v_b 0 (v_a_of 0 t) == 0).
  { rewrite Ha. reflexivity. }
  unfold thrust_of, assign_quadrant.
  py_cases; split; simpl; rewrite ?Ha, ?Hb; reflexivity.
Qed.




(** C7: at the steering angles 30, 60, 120 and 150 degrees, negating the
    angle swaps the left and right thrust, whatever the throttle. *)
Theorem get_motor_thrust_mirror_samples (t theta : Q) :
  In theta [30; 60; 120; 150] ->
  exists p,
    _get_motor_thrust t theta = Returns p /\
    agree pair_eq (_get_motor_thrust t (- theta)) (Returns (swap p)).
Proof. intros _. apply get_motor_thrust_mirror. Qed.

Lemma get_motor_thrust_mirror_samples_witness :
  exists p,
    _get_motor_thrust 50 30 = Returns p /\
    agree pair_eq (_get_motor_thrust 50 (- (30))) (Returns (swap p)).
Proof.
  apply (get_motor_thrust_mirror_samples 50 30). simpl. left. reflexivity.
Defined.

(** ** More about [_get_motor_thrust] *)




(** A throttle within [[0, 100]] gives wheel thrusts of at most twice the
    throttle. *)
Lemma thrust_of_within_twice (r t : Q) :
  0 <= r -> r <= 100 ->
  within (2 * r) (fst (thrust_of r t)) /\ within (2 * r) (snd (thrust_of r t)).
Proof.
  intros R0 R1.
  destruct (v_a_of_within r t R0) as [A0 A1].
  unfold thrust_of, compute_v_b.
  set (a := v_a_of r t) in *.
  destruct (min3_glb 100 (2 * r + a) (2 * r - a)) as (M1 & M2 & M3 & M4).
  set (b := Py.min3 _ _ _) in *.
  unfold assign_quadrant, within.
  py_cases; cbn [fst snd]; split; split; lra.
Qed.


Lemma thrust_of_zero_throttle (r t : Q) :
  r == 0 -> pair_eq (thrust_of r t) (0, 0).
Proof.
  intros Hr.
  assert (R0 : 0 <= r) by lra. assert (R1 : r <= 100) by lra.
  destruct (thrust_of_within_twice r t R0 R1) as [[L0 L1] [S0 S1]].
  split; cbn [fst snd]; lra.
Qed.

(** ** The gamepad handler *)

Lemma update_wheels_returns (self : RCApp) :
  update_wheels self =
  Returns [CallDriveWheels (fst (wheels_of self)) (snd (wheels_of self))].
Proof. reflexivity. Qed.

Lemma handle_input_ABS_Y (self : RCApp) (e : InputEvent) :
  ev_type e = "Absolute"%string -> code e = "ABS_Y"%string ->
  _handle_input self e =
  Returns (set_speed self (stick_value (state e)),
           [CallDriveWheels
              (fst (wheels_of (set_speed self (stick_value (state e)))))
              (snd (wheels_of (set_speed self (stick_value (state e)))))]).
Proof. destruct e as [t c z]. cbn [ev_type code state]. intros -> ->. reflexivity. Qed.

Lemma handle_input_ABS_RX (self : RCApp) (e : InputEvent) :
  ev_type e = "Absolute"%string -> code e = "ABS_RX"%string ->
  _handle_input self e =
  Returns (set_steering self (stick_value (state e)),
           [CallDriveWheels
              (fst (wheels_of (set_steering self (stick_value (state e)))))
              (snd (wheels_of (set_steering self (stick_value (state e)))))]).
Proof. destruct e as [t c z]. cbn [ev_type code state]. intros -> ->. reflexivity. Qed.

Lemma stick_deadband_spec (v : Q) :
  (- (15 # 100) < v /\ v < 15 # 100 /\ stick_deadband v = 0) \/
  ((v <= - (15 # 100) \/ 15 # 100 <= v) /\ stick_deadband v = v).
Proof.
  unfold stick_deadband.
  destruct (Py.ltb (- (15 # 100)) v) eqn:E1; destruct (Py.ltb v (15 # 100)) eqn:E2;
    cbn [andb];
    try apply ltb_true_iff in E1; try apply ltb_true_iff in E2;
    try apply ltb_false_iff in E1; try apply ltb_false_iff in E2; auto.
Qed.

Lemma stick_raw_range (raw : Z) :
  (-32768 <= raw <= 32768)%Z ->
  -1 <= inject_Z (- raw) / 32768 /\ inject_Z (- raw) / 32768 <= 1.
Proof.
  intros [H0 H1].
  assert (L : inject_Z (-32768) <= inject_Z (- raw)) by (rewrite <- Zle_Qle; lia).
  assert (U : inject_Z (- raw) <= inject_Z 32768) by (rewrite <- Zle_Qle; lia).
  change (inject_Z (-32768)) with (-32768) in L.
  change (inject_Z 32768) with 32768 in U.
  set (q := inject_Z (- raw)) in *.
  unfold Qdiv. change (/ 32768) with (1 # 32768). split; lra.
Qed.

Lemma stick_value_range (raw : Z) :
  (-32768 <= raw <= 32768)%Z ->
  within 1 (stick_value raw) /\
  (stick_value raw = 0 \/ 15 # 100 <= Qabs (stick_value raw)).
Proof.
  intros Hraw. destruct (stick_raw_range raw Hraw) as [V0 V1].
  unfold stick_value, within.
  destruct (stick_deadband_spec (inject_Z (- raw) / 32768))
    as [(D0 & D1 & ->) | ([D | D] & ->)].
  - split; [split; lra | left; reflexivity].
  - split; [split; lra | right]. rewrite Qabs_neg by lra. lra.
  - split; [split; lra | right]. rewrite Qabs_pos by lra. lra.
Qed.

Lemma polar_of_sticks_spec (self : RCApp) :
  fst (polar_of_sticks self) == Qabs (speed self) /\
  0 <= fst (polar_of_sticks self) /\
  (0 <= speed self /\ snd (polar_of_sticks self) = - steering self * 90 \/
   speed self < 0 /\ snd (polar_of_sticks self) = - steering self * 90 + 180).
Proof.
  unfold polar_of_sticks.
  destruct (Py.ltb (speed self) 0) eqn:E;
    [apply ltb_true_iff in E | apply ltb_false_iff in E]; cbn [fst snd].
  - rewrite Qabs_neg by lra. repeat split; try lra. right. split; [lra | reflexivity].
  - rewrite Qabs_pos by lra. repeat split; try lra. left. split; [lra | reflexivity].
Qed.

(** X1: a stick event ([ABS_Y] or [ABS_RX]) whose raw state lies in
    [[-32768, 32768]] stores a value in [[-1, 1]] that is either exactly 0 or
    at least 0.15 in magnitude; it is 0 exactly when the raw state lies in
    [[-4915, 4915]].  [ABS_Y] stores it as the speed, [ABS_RX] as the
    steering, and the other fields are kept. *)
Theorem handle_input_stick_value (self : RCApp) (e : InputEvent) :
  ev_type e = "Absolute"%string ->
  (-32768 <= state e <= 32768)%Z ->
  exists v,
    within 1 v /\
    (v = 0 \/ 15 # 100 <= Qabs v) /\
    (v == 0 <-> (-4915 <= state e <= 4915)%Z) /\
    (code e = "ABS_Y"%string ->
     exists calls, _handle_input self e = Returns (set_speed self v, calls)) /\
    (code e = "ABS_RX"%string ->
     exists calls, _handle_input self e = Returns (set_steering self v, calls)).
Proof.
  intros Ht Hraw. exists (stick_value (state e)).
  destruct (stick_value_range _ Hraw) as [Hw Hd].
  split; [exact Hw |]. split; [exact Hd |]. split.
  - unfold stick_value.
    set (q := inject_Z (- state e)).
    assert (Hq : inject_Z (- state e) = q) by reflexivity.
    destruct (stick_deadband_spec (q / 32768)) as [(D0 & D1 & ->) | (D & ->)].
    + split; [intros _ | intros _; reflexivity].
      unfold Qdiv in D0, D1. change (/ 32768) with (1 # 32768) in D0, D1.
      assert (L : inject_Z (-4916) < inject_Z (- state e)).
      { rewrite Hq. change (inject_Z (-4916)) with (-4916). lra. }
      assert (U : inject_Z (- state e) < inject_Z 4916).
      { rewrite Hq. change (inject_Z 4916) with 4916. lra. }
      rewrite <- Zlt_Qlt in L, U. lia.
    + unfold Qdiv in *. change (/ 32768) with (1 # 32768) in *.
      split; [intros Hz; lra |]. intros [Z0 Z1].
      assert (L : inject_Z (-4915) <= inject_Z (- state e))
        by (rewrite <- Zle_Qle; lia).
      assert (U : inject_Z (- state e) <= inject_Z 4915)
        by (rewrite <- Zle_Qle; lia).
      rewrite Hq in L, U.
      change (inject_Z (-4915)) with (-4915) in L.
      change (inject_Z 4915) with 4915 in U. lra.
  - split; intros Hc.
    + rewrite (handle_input_ABS_Y self e Ht Hc). eexists. reflexivity.
    + rewrite (handle_input_ABS_RX self e Ht Hc). eexists. reflexivity.
Qed.

Lemma handle_input_stick_value_witness :
  exists v,
    within 1 v /\
    (v = 0 \/ 15 # 100 <= Qabs v) /\
    (v == 0 <-> (-4915 <= 16384 <= 4915)%Z) /\
    (code (Build_InputEvent "Absolute" "ABS_Y" 16384) = "ABS_Y"%string ->
     exists calls,
       _handle_input (Build_RCApp 0 0 0 0 true)
                     (Build_InputEvent "Absolute" "ABS_Y" 16384)
       = Returns (set_speed (Build_RCApp 0 0 0 0 true) v, calls)) /\
    (code (Build_InputEvent "Absolute" "ABS_Y" 16384) = "ABS_RX"%string ->
     exists calls,
       _handle_input (Build_RCApp 0 0 0 0 true)
                     (Build_InputEvent "Absolute" "ABS_Y" 16384)
       = Returns (set_steering (Build_RCApp 0 0 0 0 true) v, calls)).
Proof.
  apply (handle_input_stick_value (Build_RCApp 0 0 0 0 true)
           (Build_InputEvent "Absolute" "ABS_Y" 16384)).
  - reflexivity.
  - cbn [state]. lia.
Defined.

(** X2: as long as the stored speed is within [[-100, 100]], the wheels
    command computed from the sticks has both thrusts within twice the
    magnitude of the speed. *)
Theorem update_wheels_bound (self : RCApp) :
  within 100 (speed self) ->
  exists left right,
    update_wheels self = Returns [CallDriveWheels left right] /\
    within (2 * Qabs (speed self)) left /\
    within (2 * Qabs (speed self)) right.
Proof.
  intros [S0 S1]. rewrite update_wheels_returns.
  exists (fst (wheels_of self)), (snd (wheels_of self)).
  split; [reflexivity |].
  destruct (polar_of_sticks_spec self) as (Hr & Hr0 & _).
  assert (Ha : Qabs (speed self) <= 100) by (apply Qabs_Qle_condition; lra).
  assert (Hc : clamp_throttle (fst (polar_of_sticks self)) == Qabs (speed self)).
  { rewrite clamp_throttle_id; [exact Hr | exact Hr0 | lra]. }
  destruct (clamp_throttle_range (fst (polar_of_sticks self))) as [C0 C1].
  destruct (thrust_of_within_twice _ (normalized (snd (polar_of_sticks self)))
              C0 C1) as [[L0 L1] [R0 R1]].
  fold (wheels_of self) in L0, L1, R0, R1.
  unfold within. rewrite <- Hc. repeat split; assumption.
Qed.

Lemma update_wheels_bound_witness :
  exists left right,
    update_wheels (Build_RCApp 1 (- (1 # 2)) 0 0 true)
      = Returns [CallDriveWheels left right] /\
    within (2 * Qabs (speed (Build_RCApp 1 (- (1 # 2)) 0 0 true))) left /\
    within (2 * Qabs (speed (Build_RCApp 1 (- (1 # 2)) 0 0 true))) right.
Proof.
  apply (update_wheels_bound (Build_RCApp 1 (- (1 # 2)) 0 0 true)).
  unfold within, Qle; cbn; lia.
Defined.






(** X6: a button event never moves the wheels: it returns, leaves the four
    stored speeds as they are and records no [_drive_wheels] call. *)
Theorem handle_input_key_no_wheels (self : RCApp) (e : InputEvent) :
  ev_type e = "Key"%string ->
  exists self' calls,
    _handle_input self e = Returns (self', calls) /\
    speed self' = speed self /\ steering self' = steering self /\
    speed_left self' = speed_left self /\
    speed_right self' = speed_right self /\
    forall left right, ~ In (CallDriveWheels left right) calls.
Proof.
  intros Ht. unfold _handle_input. rewrite Ht.
  change (String.eqb "Key" "Key") with true. cbv iota.
  cbn [bind fst snd]. unfold handle_key.
  repeat match goal with
  | |- context [String.eqb ?a ?b] => destruct (String.eqb a b)
  | |- context [Z.eqb ?a ?b] => destruct (Z.eqb a b)
  end;
    cbn [fst snd]; eexists; eexists; (split; [reflexivity |]);
    repeat split; intros left right H; cbn [In] in H;
    intuition discriminate.
Qed.

Lemma handle_input_key_no_wheels_witness :
  exists self' calls,
    _handle_input (Build_RCApp 1 0 0 0 true)
                  (Build_InputEvent "Key" "BTN_START" 1)
      = Returns (self', calls) /\
    speed self' = speed (Build_RCApp 1 0 0 0 true) /\
    steering self' = steering (Build_RCApp 1 0 0 0 true) /\
    speed_left self' = speed_left (Build_RCApp 1 0 0 0 true) /\
    speed_right self' = speed_right (Build_RCApp 1 0 0 0 true) /\
    forall left right, ~ In (CallDriveWheels left right) calls.
Proof.
  apply (handle_input_key_no_wheels (Build_RCApp 1 0 0 0 true)
           (Build_InputEvent "Key" "BTN_START" 1)).
  reflexivity.
Defined.

(** X7: a forward-stick event inside the deadband (raw state in
    [[-4915, 4915]]) stores speed 0 and commands both wheels to 0, whatever
    the stored steering is. *)
Theorem handle_input_centre_stops (self : RCApp) (e : InputEvent) :
  ev_type e = "Absolute"%string -> code e = "ABS_Y"%string ->
  (-4915 <= state e <= 4915)%Z ->
  exists left right,
    _handle_input self e =
      Returns (set_speed self 0, [CallDriveWheels left right]) /\
    left == 0 /\ right == 0.
Proof.
  intros Ht Hc Hraw. rewrite (handle_input_ABS_Y self e Ht Hc).
  assert (Hv : stick_value (state e) = 0).
  { unfold stick_value.
    destruct (stick_deadband_spec (inject_Z (- state e) / 32768))
      as [(_ & _ & E) | (D & _)]; [exact E | exfalso].
    assert (L : inject_Z (-4915) <= inject_Z (- state e))
      by (rewrite <- Zle_Qle; lia).
    assert (U : inject_Z (- state e) <= inject_Z 4915)
      by (rewrite <- Zle_Qle; lia).
    change (inject_Z (-4915)) with (-4915) in L.
    change (inject_Z 4915) with 4915 in U.
    set (q := inject_Z (- state e)) in *.
    unfold Qdiv in D. change (/ 32768) with (1 # 32768) in D. lra. }
  rewrite Hv. eexists; eexists. split; [reflexivity |].
  apply (thrust_of_zero_throttle
           (clamp_throttle (fst (polar_of_sticks (set_speed self 0))))
           (normalized (snd (polar_of_sticks (set_speed self 0))))).
  reflexivity.
Qed.

Lemma handle_input_centre_stops_witness :
  exists left right,
    _handle_input (Build_RCApp 1 (1 # 2) 0 0 true)
                  (Build_InputEvent "Absolute" "ABS_Y" 4000) =
      Returns (set_speed (Build_RCApp 1 (1 # 2) 0 0 true) 0,
               [CallDriveWheels left right]) /\
    left == 0 /\ right == 0.
Proof.
  apply (handle_input_centre_stops (Build_RCApp 1 (1 # 2) 0 0 true)
           (Build_InputEvent "Absolute" "ABS_Y" 4000)).
  - reflexivity.
  - reflexivity.
  - cbn [state]. lia.
Defined.

(** X8: a trigger event ([ABS_Z] or [ABS_RZ]) with raw state in [[0, 255]]
    stores a value in [[0, 1]] as the left (resp. right) speed and hands the
    two stored speeds to [_drive_wheels] as they are, without passing through
    the thrust mapper. *)
Theorem handle_input_trigger (self : RCApp) (e : InputEvent) :
  ev_type e = "Absolute"%string -> (0 <= state e <= 255)%Z ->
  exists v,
    v = inject_Z (state e) / 255 /\ 0 <= v /\ v <= 1 /\
    (code e = "ABS_Z"%string ->
     _handle_input self e =
       Returns (set_speed_left self v,
                [CallDriveWheels v (speed_right self)])) /\
    (code e = "ABS_RZ"%string ->
     _handle_input self e =
       Returns (set_speed_right self v,
                [CallDriveWheels (speed_left self) v])).
Proof.
  intros Ht [H0 H1]. exists (inject_Z (state e) / 255).
  split; [reflexivity |].
  assert (L : inject_Z 0 <= inject_Z (state e)) by (rewrite <- Zle_Qle; lia).
  assert (U : inject_Z (state e) <= inject_Z 255) by (rewrite <- Zle_Qle; lia).
  change (inject_Z 0) with 0 in L. change (inject_Z 255) with 255 in U.
  destruct e as [t c z]. cbn [ev_type code state] in *. subst t.
  set (q := inject_Z z) in *.
  split; [unfold Qdiv; change (/ 255) with (1 # 255); lra |].
  split; [unfold Qdiv; change (/ 255) with (1 # 255); lra |].
  split; intros ->; reflexivity.
Qed.

Lemma handle_input_trigger_witness :
  exists v,
    v = inject_Z (state (Build_InputEvent "Absolute" "ABS_Z" 128)) / 255 /\
    0 <= v /\ v <= 1 /\
    (code (Build_InputEvent "Absolute" "ABS_Z" 128) = "ABS_Z"%string ->
     _handle_input (Build_RCApp 0 0 0 (1 # 4) true)
                   (Build_InputEvent "Absolute" "ABS_Z" 128) =
       Returns (set_speed_left (Build_RCApp 0 0 0 (1 # 4) true) v,
                [CallDriveWheels v (speed_right (Build_RCApp 0 0 0 (1 # 4) true))])) /\
    (code (Build_InputEvent "Absolute" "ABS_Z" 128) = "ABS_RZ"%string ->
     _handle_input (Build_RCApp 0 0 0 (1 # 4) true)
                   (Build_InputEvent "Absolute" "ABS_Z" 128) =
       Returns (set_speed_right (Build_RCApp 0 0 0 (1 # 4) true) v,
                [CallDriveWheels (speed_left (Build_RCApp 0 0 0 (1 # 4) true)) v])).
Proof.
  apply (handle_input_trigger (Build_RCApp 0 0 0 (1 # 4) true)
           (Build_InputEvent "Absolute" "ABS_Z" 128)).
  - reflexivity.
  - cbn [state]. lia.
Defined.

(** ** The joystick loop *)

Lemma in_deadband_spec (band v : Q) :
  (- band < v /\ v < band /\ in_deadband band v = true) \/
  ((v <= - band \/ band <= v) /\ in_deadband band v = false).
Proof.
  unfold in_deadband.
  destruct (Py.ltb (- band) v) eqn:E1; destruct (Py.ltb v band) eqn:E2;
    cbn [andb];
    try apply ltb_true_iff in E1; try apply ltb_true_iff in E2;
    try apply ltb_false_iff in E1; try apply ltb_false_iff in E2; auto.
Qed.

Lemma handle_event_speeds_in_range (st : LoopState) (event : pygame_event) :
  well_formed_event event -> speeds_in_range st ->
  speeds_in_range (handle_event st event).
Proof.
  intros Hwf Hst. destruct st as [d f t h l e m].
  unfold speeds_in_range, within, max_head_speed, max_lift_speed,
    wheel_deadband in *.
  cbn [forward_speed turn_speed head_speed lift_speed] in Hst.
  destruct Hst as ([F0 F1] & [T0 T1] & [H0 H1] & [L0 L1] & DF & DT).
  destruct event as [| button | button | axis value |]; cbn [handle_event];
    cbn [done forward_speed turn_speed head_speed lift_speed expression
         make_sound];
    try (repeat split; assumption).
  - destruct (Z.ltb button 4); [| destruct (Z.eqb button 4 || Z.eqb button 5);
      [| destruct (Z.eqb button 7)]];
      cbn [forward_speed turn_speed head_speed lift_speed];
      repeat split; assumption.
  - cbn [well_formed_event] in Hwf. destruct Hwf as [V0 V1].
    unfold head_deadband, lift_deadband, max_head_speed, max_lift_speed,
      wheel_deadband.
    destruct (Z.eqb axis 1); [| destruct (Z.eqb axis 0);
      [| destruct (Z.eqb axis 3); [| destruct (Z.eqb axis 2)]]];
      cbn [forward_speed turn_speed head_speed lift_speed].
    + destruct (in_deadband_spec (1 # 10) value)
        as [(D0 & D1 & ->) | ([D | D] & ->)].
      * repeat split; try assumption; try lra. left; reflexivity.
      * repeat split; try assumption; try lra.
        right. rewrite Qabs_pos by lra. lra.
      * repeat split; try assumption; try lra.
        right. rewrite Qabs_neg by lra. lra.
    + destruct (in_deadband_spec (1 # 10) value)
        as [(D0 & D1 & ->) | ([D | D] & ->)].
      * repeat split; try assumption; try lra. left; reflexivity.
      * repeat split; try assumption; try lra.
        right. rewrite Qabs_neg by lra. lra.
      * repeat split; try assumption; try lra.
        right. rewrite Qabs_pos by lra. lra.
    + destruct (in_deadband_spec (5 # 100) value)
        as [(D0 & D1 & ->) | (D & ->)];
        repeat split; try assumption; lra.
    + destruct (in_deadband_spec (5 # 100) value)
        as [(D0 & D1 & ->) | (D & ->)];
        repeat split; try assumption; lra.
    + repeat split; assumption.
Qed.

Lemma handle_events_speeds_in_range (events : list pygame_event) :
  forall st,
    Forall well_formed_event events -> speeds_in_range st ->
    speeds_in_range (handle_events st events).
Proof.
  unfold handle_events.
  induction events as [| event events IH]; intros st Hwf Hst; [exact Hst |].
  inversion Hwf as [| ? ? Hev Hrest]; subst. cbn [fold_left].
  apply IH; [exact Hrest |].
  apply handle_event_speeds_in_range; assumption.
Qed.

Lemma initial_speeds_in_range : speeds_in_range initial_loop_state.
Proof.
  unfold speeds_in_range, within, initial_loop_state, max_head_speed,
    max_lift_speed; cbn [forward_speed turn_speed head_speed lift_speed].
  repeat split; try lra; left; reflexivity.
Qed.

(** X9: whatever events arrive (axis values in [[-1, 1]]), the forward and
    turn speeds stay in [[-1, 1]] and are each either 0 or outside the wheel
    deadband, the head and lift speeds stay within [max_head_speed] and
    [max_lift_speed], and the wheel speeds sent at the end of the frame are
    within one and a half times [max_wheel_speed]. *)
Theorem handle_events_bounds (st : LoopState) (events : list pygame_event) :
  Forall well_formed_event events ->
  speeds_in_range st ->
  speeds_in_range (handle_events st events) /\
  exists left right,
    frame_wheels (handle_events st events) = Returns (left, right) /\
    within 225 left /\ within 225 right.
Proof.
  intros Hwf Hst.
  pose proof (handle_events_speeds_in_range events st Hwf Hst) as Hinv.
  split; [exact Hinv |].
  destruct Hinv as (F & T & _).
  destruct (translate_speed_blended_bound _ _ F T) as (l & r & E & [L0 L1] & [R0 R1]).
  exists l, r. split; [exact E |].
  unfold within, max_wheel_speed in *.
  unfold Qdiv in *. change (/ 2) with (1 # 2) in *. split; split; lra.
Qed.

Lemma handle_events_bounds_witness :
  speeds_in_range
    (handle_events initial_loop_state
       [JOYAXISMOTION 1 (- (1)); JOYAXISMOTION 0 1; JOYBUTTONDOWN 2]) /\
  exists left right,
    frame_wheels
      (handle_events initial_loop_state
         [JOYAXISMOTION 1 (- (1)); JOYAXISMOTION 0 1; JOYBUTTONDOWN 2])
      = Returns (left, right) /\
    within 225 left /\ within 225 right.
Proof.
  apply (handle_events_bounds initial_loop_state
           [JOYAXISMOTION 1 (- (1)); JOYAXISMOTION 0 1; JOYBUTTONDOWN 2]).
  - repeat constructor; cbn; try lia; discriminate.
  - exact initial_speeds_in_range.
Defined.

Lemma handle_event_expression (st : LoopState) (event : pygame_event) :
  well_formed_event event ->
  (-1 <= expression st <= 3)%Z ->
  (-1 <= expression (handle_event st event) <= 3)%Z.
Proof.
  intros Hwf He.
  destruct event as [| button | button | axis value |]; cbn [handle_event];
    cbn [expression]; try assumption.
  - cbn [well_formed_event] in Hwf.
    destruct (Z.ltb button 4) eqn:E4; [apply Z.ltb_lt in E4; cbn [expression]; lia |].
    destruct (Z.eqb button 4 || Z.eqb button 5);
      [| destruct (Z.eqb button 7)]; cbn [expression]; assumption.
  - destruct (Z.eqb axis 1); [| destruct (Z.eqb axis 0);
      [| destruct (Z.eqb axis 3); [| destruct (Z.eqb axis 2)]]];
      cbn [expression]; assumption.
Qed.

(** X10: with button numbers that are not negative, the pending expression
    is always -1 (none) or one of 0, 1, 2, 3, the four values the loop knows
    how to play: the events keep it in that range. *)
Theorem handle_events_expression (events : list pygame_event) :
  forall st,
    Forall well_formed_event events ->
    (-1 <= expression st <= 3)%Z ->
    (-1 <= expression (handle_events st events) <= 3)%Z.
Proof.
  unfold handle_events.
  induction events as [| event events IH]; intros st Hwf He; [exact He |].
  inversion Hwf as [| ? ? Hev Hrest]; subst. cbn [fold_left].
  apply IH; [exact Hrest |]. apply handle_event_expression; assumption.
Qed.

Lemma handle_events_expression_witness :
  (-1 <= expression
           (handle_events initial_loop_state
              [JOYBUTTONDOWN 9; JOYBUTTONDOWN 3; JOYAXISMOTION 0 (1 # 2)])
      <= 3)%Z.
Proof.
  apply (handle_events_expression
           [JOYBUTTONDOWN 9; JOYBUTTONDOWN 3; JOYAXISMOTION 0 (1 # 2)]
           initial_loop_state).
  - repeat constructor; cbn; try lia; discriminate.
  - cbn. lia.
Defined.

Lemma handle_event_done (st : LoopState) (event : pygame_event) :
  done (handle_event st event) = done st || quits event.
Proof.
  destruct event as [| button | button | axis value |];
    cbn [handle_event quits]; cbn [done];
    rewrite ?orb_true_r, ?orb_false_r; try reflexivity.
  - destruct (Z.ltb button 4) eqn:E4.
    + apply Z.ltb_lt in E4. cbn [done].
      replace (Z.eqb button 7) with false by (symmetry; apply Z.eqb_neq; lia).
      rewrite orb_false_r. reflexivity.
    + destruct (Z.eqb button 4) eqn:E; [apply Z.eqb_eq in E; subst;
        cbn; rewrite orb_false_r; reflexivity |].
      destruct (Z.eqb button 5) eqn:E5; [apply Z.eqb_eq in E5; subst;
        cbn; rewrite orb_false_r; reflexivity |].
      cbn [orb]. destruct (Z.eqb button 7); cbn [done];
        rewrite ?orb_true_r, ?orb_false_r; reflexivity.
  - destruct (Z.eqb axis 1); [| destruct (Z.eqb axis 0);
      [| destruct (Z.eqb axis 3); [| destruct (Z.eqb axis 2)]]];
      cbn [done]; reflexivity.
Qed.

(** X11: the loop is asked to stop exactly when the window was closed or
    button 7 was pressed: after any events, [done] is set if and only if it
    was set before or one of the events is [QUIT] or a press of button 7;
    no event clears it. *)
Theorem handle_events_done (events : list pygame_event) (st : LoopState) :
  done (handle_events st events) = true <->
  done st = true \/ In QUIT events \/ In (JOYBUTTONDOWN 7) events.
Proof.
  unfold handle_events. revert st.
  induction events as [| event events IH]; intros st; cbn [fold_left In].
  - tauto.
  - rewrite IH, handle_event_done, orb_true_iff.
    assert (Hq : quits event = true <-> event = QUIT \/ event = JOYBUTTONDOWN 7).
    { destruct event as [| button | button | axis value |]; cbn [quits];
        try (split; [discriminate | intros [H | H]; discriminate H]).
      - split; [left; reflexivity | reflexivity].
      - rewrite Z.eqb_eq. split; [intros ->; right; reflexivity |].
        intros [H | H]; [discriminate H | injection H as ->; reflexivity]. }
    rewrite Hq. tauto.
Qed.

(** ** The command line *)

Lemma select_commands_snoc (prog : string) (args : list string) (x : string) :
  select_commands (prog :: args ++ [x]) = args.
Proof.
  unfold select_commands, py_slice.
  cbn [List.length]. rewrite length_app. cbn [List.length].
  replace (Nat.leb 2 (S (List.length args + 1))) with true
    by (symmetry; apply Nat.leb_le; lia).
  replace (S (List.length args + 1) - 1 - 1)%nat with (List.length args + 0)%nat
    by lia.
  cbn [skipn]. rewrite firstn_app_2. cbn [firstn]. apply app_nil_r.
Qed.

Lemma apply_arg_flags (flags : Flags) (arg : string) :
  run_cozmo (apply_arg flags arg)
    = run_cozmo flags && negb (String.eqb arg "nocozmo") /\
  use_debug (apply_arg flags arg)
    = use_debug flags || String.eqb arg "debug" || String.eqb arg "-v" /\
  print_help (apply_arg flags arg)
    = print_help flags || String.eqb arg "help" || String.eqb arg "-h" ||
      String.eqb arg "--h" || String.eqb arg "?".
Proof.
  unfold apply_arg.
  destruct (String.eqb_spec arg "nocozmo") as [-> | _];
    [cbn; rewrite andb_false_r, !orb_false_r; auto |].
  destruct (String.eqb_spec arg "debug") as [-> | _];
    [cbn; rewrite andb_true_r, !orb_false_r, orb_true_r; auto |].
  destruct (String.eqb_spec arg "-v") as [-> | _];
    [cbn; rewrite andb_true_r, !orb_false_r, orb_true_r; auto |].
  cbn [orb].
  destruct (String.eqb arg "help"), (String.eqb arg "-h"),
    (String.eqb arg "--h"), (String.eqb arg "?");
    cbn; rewrite ?andb_true_r, ?orb_false_r, ?orb_true_r; auto.
Qed.

Lemma fold_apply_arg_flags (args : list string) :
  forall flags,
    (run_cozmo (fold_left apply_arg args flags) = false <->
     run_cozmo flags = false \/ In "nocozmo"%string args) /\
    (use_debug (fold_left apply_arg args flags) = true <->
     use_debug flags = true \/ In "debug"%string args \/ In "-v"%string args) /\
    (print_help (fold_left apply_arg args flags) = true <->
     print_help flags = true \/ In "help"%string args \/ In "-h"%string args \/
     In "--h"%string args \/ In "?"%string args).
Proof.
  induction args as [| arg args IH]; intros flags; cbn [fold_left In].
  - tauto.
  - destruct (IH (apply_arg flags arg)) as (R & D & H).
    destruct (apply_arg_flags flags arg) as (ER & ED & EH).
    rewrite R, D, H, ER, ED, EH.
    rewrite andb_false_iff, negb_false_iff, !orb_true_iff, !String.eqb_eq.
    repeat split; intros; intuition (subst; auto).
Qed.

(** X12: the last command-line argument is never looked at: the flags are
    those obtained from the arguments between the program name and the last
    one, so they do not depend on the last argument, and a call with a single
    argument runs with the default flags. *)
Theorem parse_flags_last_ignored (prog : string) (args : list string)
    (x y : string) :
  parse_flags (prog :: args ++ [x]) = fold_left apply_arg args default_flags /\
  parse_flags (prog :: args ++ [x]) = parse_flags (prog :: args ++ [y]) /\
  parse_flags [prog; x] = default_flags.
Proof.
  unfold parse_flags. rewrite !select_commands_snoc.
  split; [reflexivity |]. split; [reflexivity |].
  change [prog; x] with (prog :: [] ++ [x]).
  rewrite select_commands_snoc. reflexivity.
Qed.

(** X13: which arguments set which flag: the robot is left out exactly when
    [nocozmo] is among the arguments before the last one, debug text is on
    exactly when [debug] or [-v] is, and the help text is printed exactly
    when [help], [-h], [--h] or [?] is. *)
Theorem parse_flags_spec (prog : string) (args : list string) (x : string) :
  (run_cozmo (parse_flags (prog :: args ++ [x])) = false <->
   In "nocozmo"%string args) /\
  (use_debug (parse_flags (prog :: args ++ [x])) = true <->
   In "debug"%string args \/ In "-v"%string args) /\
  (print_help (parse_flags (prog :: args ++ [x])) = true <->
   In "help"%string args \/ In "-h"%string args \/
   In "--h"%string args \/ In "?"%string args).
Proof.
  unfold parse_flags. rewrite select_commands_snoc.
  destruct (fold_apply_arg_flags args default_flags) as (R & D & H).
  rewrite R, D, H. cbn [run_cozmo use_debug print_help default_flags].
  repeat split; intros; intuition discriminate.
Qed.

(** ** The keyboard loop *)

Lemma max_lub (a b : Q) :
  a <= Py.max a b /\ b <= Py.max a b /\ (Py.max a b == a \/ Py.max a b == b).
Proof. unfold Py.max. py_cases; repeat split; try lra; auto with qarith. Qed.

Lemma wheel_speeds_returns (K : Constants) (lin ang : Q) :
  wheel_speeds K lin ang =
  Returns (Py.min (MAX_WHEEL_SPEED_mmps K) (lin - TRACK_WIDTH_mm K * ang / 2),
           Py.min (MAX_WHEEL_SPEED_mmps K) (lin + TRACK_WIDTH_mm K * ang / 2)).
Proof. reflexivity. Qed.

Section Keyboard.

Variable K : Constants.
Hypothesis K_sensible : sensible K.

Let MAX := MAX_WHEEL_SPEED_mmps K.
Let TRACK := TRACK_WIDTH_mm K.

Lemma track_not_zero : Py.eqb TRACK 0 = false.
Proof.
  destruct K_sensible as (_ & HT & _). apply eqb_false_iff.
  unfold TRACK. intros E. rewrite E in HT. revert HT. apply Qlt_irrefl.
Qed.

Lemma angular_limit : 0 <= MAX / TRACK /\ TRACK * (MAX / TRACK) == MAX.
Proof.
  destruct K_sensible as (HM & HT & _). fold MAX in HM. fold TRACK in HT.
  split.
  - apply Qle_shift_div_l; [exact HT | lra].
  - field. lra.
Qed.

Lemma wheel_speeds_in_range (lin ang : Q) :
  within MAX lin -> within (MAX / TRACK) ang ->
  exists l r,
    wheel_speeds K lin ang = Returns (l, r) /\
    call_in_range K (drive_wheels l r).
Proof.
  intros [L0 L1] [A0 A1]. rewrite wheel_speeds_returns.
  eexists; eexists. split; [reflexivity |].
  destruct K_sensible as (HM & HT & _). fold MAX in HM. fold TRACK in HT.
  destruct angular_limit as [B0 B1].
  cbn [call_in_range]. fold MAX. fold TRACK.
  set (B := MAX / TRACK) in *.
  assert (H0 : - MAX <= TRACK * ang) by (rewrite <- B1; nra).
  assert (H1 : TRACK * ang <= MAX) by (rewrite <- B1; nra).
  set (ta := TRACK * ang) in *.
  unfold Qdiv. change (/ 2) with (1 # 2).
  destruct (min_glb MAX (lin - ta * (1 # 2))) as (M1 & M2 & M3).
  destruct (min_glb MAX (lin + ta * (1 # 2))) as (N1 & N2 & N3).
  repeat split; lra.
Qed.

Lemma float_div_returns (x y : Q) :
  Py.eqb y 0 = false -> Py.float_div x y = Returns (x / y).
Proof. intros E. unfold Py.float_div. rewrite E. reflexivity. Qed.

Lemma key_turn_in_range (st : Teleop) (key : Z) :
  teleop_in_range K st ->
  exists t,
    key_turn K st key = Returns t /\
    match t with
    | Break => True
    | Continue st' calls =>
        teleop_in_range K st' /\ Forall (call_in_range K) calls
    end.
Proof.
  intros Hst.
  pose proof Hst as ([L0 L1] & [A0 A1] & H0 & H1 & F0 & F1).
  pose proof K_sensible as (HM & HT & HA & HH & HHd & HLf).
  destruct angular_limit as [B0 B1].
  pose proof track_not_zero as TZ.
  fold MAX in L0, L1, A0, A1, HM, B0. fold TRACK in A0, A1, HT, B0.
  unfold key_turn, key_in. cbn [existsb].
  destruct (Z.eqb key (ord "q")); [exists Break; split; [reflexivity | exact I] |].
  destruct (Z.eqb key (ord "w")); cbn [orb bind fst snd].
  { destruct (min_glb MAX (LIN_VELOCITY st + LIN_INC)) as (M1 & M2 & M3).
    fold MAX.
    destruct (wheel_speeds_in_range (Py.min MAX (LIN_VELOCITY st + LIN_INC))
                (ANG_VELOCITY st)) as (l & r & E & Hc).
    { unfold within, LIN_INC in *. split; lra. }
    { split; assumption. }
    rewrite E. cbn [bind fst snd].
    eexists. split; [reflexivity |].
    split; [| constructor; [exact Hc | constructor]].
    unfold teleop_in_range, within.
    cbn [LIN_VELOCITY ANG_VELOCITY HEAD_TILT LIFT_HEIGHT]. fold MAX. fold TRACK.
    unfold LIN_INC in *. repeat split; try assumption; lra. }
  destruct (Z.eqb key (ord "s")); cbn [orb bind fst snd].
  { destruct (max_lub (- MAX) (LIN_VELOCITY st - LIN_INC)) as (M1 & M2 & M3).
    fold MAX.
    destruct (wheel_speeds_in_range (Py.max (- MAX) (LIN_VELOCITY st - LIN_INC))
                (ANG_VELOCITY st)) as (l & r & E & Hc).
    { unfold within, LIN_INC in *. split; lra. }
    { split; assumption. }
    rewrite E. cbn [bind fst snd].
    eexists. split; [reflexivity |].
    split; [| constructor; [exact Hc | constructor]].
    unfold teleop_in_range, within.
    cbn [LIN_VELOCITY ANG_VELOCITY HEAD_TILT LIFT_HEIGHT]. fold MAX. fold TRACK.
    unfold LIN_INC in *. repeat split; try assumption; lra. }
  destruct (Z.eqb key (ord "a")); cbn [orb bind fst snd].
  { fold MAX. fold TRACK. rewrite (float_div_returns MAX TRACK TZ).
    cbn [bind fst snd].
    destruct (min_glb (MAX / TRACK) (ANG_VELOCITY st + ANG_INC K)) as (M1 & M2 & M3).
    destruct (wheel_speeds_in_range (LIN_VELOCITY st)
                (Py.min (MAX / TRACK) (ANG_VELOCITY st + ANG_INC K)))
      as (l & r & E & Hc).
    { split; assumption. }
    { unfold within. split; lra. }
    rewrite E. cbn [bind fst snd].
    eexists. split; [reflexivity |].
    split; [| constructor; [exact Hc | constructor]].
    unfold teleop_in_range, within.
    cbn [LIN_VELOCITY ANG_VELOCITY HEAD_TILT LIFT_HEIGHT]. fold MAX. fold TRACK.
    repeat split; try assumption; lra. }
  destruct (Z.eqb key (ord "d")); cbn [orb bind fst snd].
  { fold MAX. fold TRACK. rewrite (float_div_returns (- MAX) TRACK TZ).
    cbn [bind fst snd].
    assert (EB : - MAX / TRACK == - (MAX / TRACK)) by (field; lra).
    destruct (max_lub (- MAX / TRACK) (ANG_VELOCITY st - ANG_INC K)) as (M1 & M2 & M3).
    destruct (wheel_speeds_in_range (LIN_VELOCITY st)
                (Py.max (- MAX / TRACK) (ANG_VELOCITY st - ANG_INC K)))
      as (l & r & E & Hc).
    { split; assumption. }
    { unfold within. split; lra. }
    rewrite E. cbn [bind fst snd].
    eexists. split; [reflexivity |].
    split; [| constructor; [exact Hc | constructor]].
    unfold teleop_in_range, within.
    cbn [LIN_VELOCITY ANG_VELOCITY HEAD_TILT LIFT_HEIGHT]. fold MAX. fold TRACK.
    repeat split; try assumption; lra. }
  destruct (Z.eqb key (ord "k")); cbn [orb].
  { destruct (min_glb (MAX_HEAD_ANGLE_radians K) (HEAD_TILT st + HEAD_INC K))
      as (M1 & M2 & M3).
    eexists. split; [reflexivity |].
    split; [| constructor; [cbn [call_in_range]; split; lra | constructor]].
    unfold teleop_in_range, within.
    cbn [LIN_VELOCITY ANG_VELOCITY HEAD_TILT LIFT_HEIGHT]. fold MAX. fold TRACK.
    repeat split; try assumption; lra. }
  destruct (Z.eqb key (ord "j")); cbn [orb].
  { destruct (max_lub (MIN_HEAD_ANGLE_radians K) (HEAD_TILT st - HEAD_INC K))
      as (M1 & M2 & M3).
    eexists. split; [reflexivity |].
    split; [| constructor; [cbn [call_in_range]; split; lra | constructor]].
    unfold teleop_in_range, within.
    cbn [LIN_VELOCITY ANG_VELOCITY HEAD_TILT LIFT_HEIGHT]. fold MAX. fold TRACK.
    repeat split; try assumption; lra. }
  destruct (Z.eqb key (ord "n")) eqn:En; cbn [orb].
  { destruct (Z.eqb key (ord "m")) eqn:Em.
    { apply Z.eqb_eq in En, Em. rewrite En in Em. discriminate Em. }
    destruct (max_lub (MIN_LIFT_HEIGHT_mm K) (LIFT_HEIGHT st - LIFT_INC))
      as (M1 & M2 & M3).
    eexists. split; [reflexivity |].
    split; [| constructor; [cbn [call_in_range]; unfold LIFT_INC in *; split; lra
                           | constructor]].
    unfold teleop_in_range, within.
    cbn [LIN_VELOCITY ANG_VELOCITY HEAD_TILT LIFT_HEIGHT]. fold MAX. fold TRACK.
    unfold LIFT_INC in *. repeat split; try assumption; lra. }
  destruct (Z.eqb key (ord "m")); cbn [orb].
  { destruct (min_glb (MAX_LIFT_HEIGHT_mm K) (LIFT_HEIGHT st + LIFT_INC))
      as (M1 & M2 & M3).
    eexists. split; [reflexivity |].
    split; [| constructor; [cbn [call_in_range]; unfold LIFT_INC in *; split; lra
                           | constructor]].
    unfold teleop_in_range, within.
    cbn [LIN_VELOCITY ANG_VELOCITY HEAD_TILT LIFT_HEIGHT]. fold MAX. fold TRACK.
    unfold LIFT_INC in *. repeat split; try assumption; lra. }
  destruct (Z.eqb key (ord "l")).
  { eexists. split; [reflexivity |].
    split; [| constructor; [exact I | constructor]].
    exact Hst. }
  eexists. split; [reflexivity |]. split; [exact Hst | constructor].
Qed.

End Keyboard.

(** X14: with sensible constants the keyboard loop never fails and never
    leaves its limits: from a state within the limits, any sequence of keys
    ends in a state within the limits, every head angle and lift height sent
    to the robot is between its minimum and maximum, and every wheel speed
    sent is at most the maximum speed and at least minus one and a half times
    the maximum speed. *)
Theorem run_keys_in_range (K : Constants) (keys : list Z) :
  sensible K ->
  forall st,
    teleop_in_range K st ->
    exists st' calls,
      run_keys K st keys = Returns (st', calls) /\
      teleop_in_range K st' /\ Forall (call_in_range K) calls.
Proof.
  intros HK. induction keys as [| key keys IH]; intros st Hst.
  - exists st, []. split; [reflexivity |]. split; [exact Hst | constructor].
  - destruct (key_turn_in_range K HK st key Hst) as (t & Et & Ht).
    cbn [run_keys]. rewrite Et. cbn [bind].
    destruct t as [| st1 calls1].
    + exists st, []. split; [reflexivity |]. split; [exact Hst | constructor].
    + destruct Ht as [Hst1 Hc1].
      destruct (IH st1 Hst1) as (st' & calls & E & Hst' & Hc).
      rewrite E. cbn [bind fst snd].
      exists st', (calls1 ++ calls). split; [reflexivity |].
      split; [exact Hst' |]. apply Forall_app. split; assumption.
Qed.

Lemma run_keys_in_range_witness :
  exists st' calls,
    run_keys (Build_Constants 200 45 (78 # 100) (- (44 # 100)) 92 32
                (35 # 100) (35 # 1000))
      (Build_Teleop 0 0 (1 # 10) false 32)
      [ord "w"%char; ord "a"%char; ord "k"%char; ord "m"%char; ord "l"%char]
      = Returns (st', calls) /\
    teleop_in_range (Build_Constants 200 45 (78 # 100) (- (44 # 100)) 92 32
                       (35 # 100) (35 # 1000)) st' /\
    Forall (call_in_range (Build_Constants 200 45 (78 # 100) (- (44 # 100))
                             92 32 (35 # 100) (35 # 1000))) calls.
Proof.
  apply (run_keys_in_range
           (Build_Constants 200 45 (78 # 100) (- (44 # 100)) 92 32
              (35 # 100) (35 # 1000))
           [ord "w"%char; ord "a"%char; ord "k"%char; ord "m"%char; ord "l"%char]).
  - unfold sensible; cbn. repeat split; discriminate.
  - unfold teleop_in_range, within; cbn. repeat split; discriminate.
Defined.

(** X15: the wheel speeds are clamped from above only: going backwards at
    full speed while turning at the full rate, the left wheel is sent minus
    one and a half times the maximum speed, below minus the maximum. *)
Theorem key_turn_no_lower_clamp (K : Constants) (st : Teleop) :
  0 < MAX_WHEEL_SPEED_mmps K -> 0 < TRACK_WIDTH_mm K ->
  LIN_VELOCITY st == - MAX_WHEEL_SPEED_mmps K ->
  ANG_VELOCITY st == MAX_WHEEL_SPEED_mmps K / TRACK_WIDTH_mm K ->
  exists st' l r,
    key_turn K st (ord "s"%char) = Returns (Continue st' [drive_wheels l r]) /\
    l == - (3 # 2) * MAX_WHEEL_SPEED_mmps K /\
    l < - MAX_WHEEL_SPEED_mmps K.
Proof.
  intros HM HT HL HA.
  eexists; eexists; eexists. split; [reflexivity |].
  cbn [fst snd].
  set (M := MAX_WHEEL_SPEED_mmps K) in *. set (T := TRACK_WIDTH_mm K) in *.
  assert (E1 : Py.max (- M) (LIN_VELOCITY st - LIN_INC) == - M).
  { destruct (max_lub (- M) (LIN_VELOCITY st - LIN_INC)) as (M1 & M2 & M3).
    unfold LIN_INC in *. lra. }
  assert (E2 : T * ANG_VELOCITY st / 2 == M / 2).
  { rewrite HA. field. lra. }
  assert (E : Py.min M (Py.max (- M) (LIN_VELOCITY st - LIN_INC)
                        - T * ANG_VELOCITY st / 2) == - (3 # 2) * M).
  { rewrite E1, E2.
    destruct (min_glb M (- M - M / 2)) as (M1 & M2 & M3).
    unfold Qdiv in *. change (/ 2) with (1 # 2) in *. lra. }
  split; [exact E |]. rewrite E. lra.
Qed.

Lemma key_turn_no_lower_clamp_witness :
  exists st' l r,
    key_turn (Build_Constants 200 50 1 0 92 32 1 1)
             (Build_Teleop (- (200)) 4 0 false 32) (ord "s"%char)
      = Returns (Continue st' [drive_wheels l r]) /\
    l == - (3 # 2) * MAX_WHEEL_SPEED_mmps (Build_Constants 200 50 1 0 92 32 1 1) /\
    l < - MAX_WHEEL_SPEED_mmps (Build_Constants 200 50 1 0 92 32 1 1).
Proof.
  apply (key_turn_no_lower_clamp (Build_Constants 200 50 1 0 92 32 1 1)
           (Build_Teleop (- (200)) 4 0 false 32));
    reflexivity.
Defined.

(** X16: pressing the quit key ends the loop: whatever keys follow it have
    no effect on the state or on the calls made. *)
Theorem run_keys_quit (K : Constants) (keys rest : list Z) :
  forall st,
    run_keys K st (keys ++ ord "q"%char :: rest) = run_keys K st keys.
Proof.
  induction keys as [| key keys IH]; intros st.
  - reflexivity.
  - cbn [app run_keys].
    destruct (key_turn K st key) as [[| st1 calls1] | e]; cbn [bind];
      [reflexivity | | reflexivity].
    rewrite IH. reflexivity.
Qed.

Lemma key_turn_w (K : Constants) (st : Teleop) :
  key_turn K st (ord "w"%char) =
  Returns
    (Continue
       {| LIN_VELOCITY :=
            Py.min (MAX_WHEEL_SPEED_mmps K) (LIN_VELOCITY st + LIN_INC);
          ANG_VELOCITY := ANG_VELOCITY st; HEAD_TILT := HEAD_TILT st;
          HEAD_LIGHT := HEAD_LIGHT st; LIFT_HEIGHT := LIFT_HEIGHT st |}
       [drive_wheels
          (fst (Py.min (MAX_WHEEL_SPEED_mmps K)
                  (Py.min (MAX_WHEEL_SPEED_mmps K) (LIN_VELOCITY st + LIN_INC)
                   - TRACK_WIDTH_mm K * ANG_VELOCITY st / 2),
                Py.min (MAX_WHEEL_SPEED_mmps K)
                  (Py.min (MAX_WHEEL_SPEED_mmps K) (LIN_VELOCITY st + LIN_INC)
                   + TRACK_WIDTH_mm K * ANG_VELOCITY st / 2)))
          (snd (Py.min (MAX_WHEEL_SPEED_mmps K)
                  (Py.min (MAX_WHEEL_SPEED_mmps K) (LIN_VELOCITY st + LIN_INC)
                   - TRACK_WIDTH_mm K * ANG_VELOCITY st / 2),
                Py.min (MAX_WHEEL_SPEED_mmps K)
                  (Py.min (MAX_WHEEL_SPEED_mmps K) (LIN_VELOCITY st + LIN_INC)
                   + TRACK_WIDTH_mm K * ANG_VELOCITY st / 2)))]).
Proof. reflexivity. Qed.

Lemma min_saturates (m x c : Q) :
  0 <= c -> Py.min m (Py.min m x + c) == Py.min m (x + c).
Proof.
  intros Hc.
  destruct (min_glb m x) as (A1 & A2 & A3).
  destruct (min_glb m (Py.min m x + c)) as (B1 & B2 & B3).
  destruct (min_glb m (x + c)) as (C1 & C2 & C3).
  lra.
Qed.

(** X17: pressing the forward key [n] times (at least once) raises the
    linear velocity by [n] increments of 20 and stops at the maximum wheel
    speed; the angular velocity is not touched and each press sends one
    wheels command. *)
Theorem run_keys_forward (K : Constants) (n : nat) :
  forall st,
    exists st' calls,
      run_keys K st (repeat (ord "w"%char) (S n)) = Returns (st', calls) /\
      LIN_VELOCITY st' ==
        Py.min (MAX_WHEEL_SPEED_mmps K)
               (LIN_VELOCITY st + LIN_INC * inject_Z (Z.of_nat (S n))) /\
      ANG_VELOCITY st' = ANG_VELOCITY st /\
      List.length calls = S n.
Proof.
  induction n as [| n IH]; intros st.
  - cbn [repeat run_keys]. rewrite key_turn_w. cbn [bind fst snd app].
    eexists; eexists. split; [reflexivity |].
    cbn [LIN_VELOCITY ANG_VELOCITY List.length].
    split; [| split; reflexivity].
    apply min_compat; [reflexivity |].
    change (inject_Z (Z.of_nat 1)) with 1. ring.
  - change (repeat (ord "w"%char) (S (S n)))
      with (ord "w"%char :: repeat (ord "w"%char) (S n)).
    cbn [run_keys]. rewrite key_turn_w. cbn [bind].
    match goal with
    | |- context [run_keys K ?s1 _] =>
        destruct (IH s1) as (st' & calls & E & HL & HA & Hlen); rewrite E
    end.
    cbn [bind fst snd].
    eexists; eexists. split; [reflexivity |].
    cbn [LIN_VELOCITY ANG_VELOCITY] in HL, HA.
    split; [| split; [exact HA | cbn [app List.length]; rewrite Hlen; reflexivity]].
    rewrite HL.
    assert (Hq : 0 <= inject_Z (Z.of_nat (S n))).
    { change 0 with (inject_Z 0). rewrite <- Zle_Qle. lia. }
    assert (Hs : inject_Z (Z.of_nat (S (S n))) == inject_Z (Z.of_nat (S n)) + 1).
    { rewrite (Nat2Z.inj_succ (S n)). unfold Z.succ. rewrite inject_Z_plus.
      reflexivity. }
    rewrite min_saturates by (unfold LIN_INC; nra).
    apply min_compat; [reflexivity |]. rewrite Hs. ring.
Qed.

(** X18: the forward key followed by the backward key brings the linear
    velocity back to where it was, as long as the first press stays below the
    maximum wheel speed. *)
Theorem run_keys_forward_back (K : Constants) (st : Teleop) :
  - MAX_WHEEL_SPEED_mmps K <= LIN_VELOCITY st ->
  LIN_VELOCITY st + LIN_INC <= MAX_WHEEL_SPEED_mmps K ->
  exists st' calls,
    run_keys K st [ord "w"%char; ord "s"%char] = Returns (st', calls) /\
    LIN_VELOCITY st' == LIN_VELOCITY st /\
    ANG_VELOCITY st' = ANG_VELOCITY st /\ HEAD_TILT st' = HEAD_TILT st /\
    HEAD_LIGHT st' = HEAD_LIGHT st /\ LIFT_HEIGHT st' = LIFT_HEIGHT st.
Proof.
  intros H0 H1.
  eexists; eexists. split; [reflexivity |].
  cbn [fst snd LIN_VELOCITY ANG_VELOCITY HEAD_TILT HEAD_LIGHT LIFT_HEIGHT].
  split; [| repeat split].
  set (M := MAX_WHEEL_SPEED_mmps K) in *. set (x := LIN_VELOCITY st) in *.
  destruct (min_glb M (x + LIN_INC)) as (A1 & A2 & A3).
  destruct (max_lub (- M) (Py.min M (x + LIN_INC) - LIN_INC)) as (B1 & B2 & B3).
  unfold LIN_INC in *. lra.
Qed.

Lemma run_keys_forward_back_witness :
  exists st' calls,
    run_keys (Build_Constants 200 45 1 0 92 32 1 1)
             (Build_Teleop 40 0 0 false 32) [ord "w"%char; ord "s"%char]
      = Returns (st', calls) /\
    LIN_VELOCITY st' == LIN_VELOCITY (Build_Teleop 40 0 0 false 32) /\
    ANG_VELOCITY st' = ANG_VELOCITY (Build_Teleop 40 0 0 false 32) /\
    HEAD_TILT st' = HEAD_TILT (Build_Teleop 40 0 0 false 32) /\
    HEAD_LIGHT st' = HEAD_LIGHT (Build_Teleop 40 0 0 false 32) /\
    LIFT_HEIGHT st' = LIFT_HEIGHT (Build_Teleop 40 0 0 false 32).
Proof.
  apply (run_keys_forward_back (Build_Constants 200 45 1 0 92 32 1 1)
           (Build_Teleop 40 0 0 false 32)); discriminate.
Defined.



(** ** Rounded arithmetic *)

(** Exact arithmetic is one rounding. *)
#[export] Instance exact_rounding : Rounding.
Proof.
  refine {| rnd := fun x => x |}.
  - intros x y H. exact H.
  - intros x y H. exact H.
  - intros n k _ _. reflexivity.
  - intros x. reflexivity.
  - intros x H. lra.
  - intros x _. reflexivity.
Defined.

Section RoundedFacts.

Context {R : Rounding}.

#[export] Instance rnd_proper : Proper (Qeq ==> Qeq) rnd.
Proof. intros x y H. apply rnd_compat. exact H. Qed.

Lemma rnd_integer (n : Z) :
  (Z.abs n <= 2 ^ 53)%Z -> rnd (inject_Z n) == inject_Z n.
Proof.
  intros Hn. pose proof (rnd_dyadic n 0 Hn ltac:(lia)) as H.
  assert (E : inject_Z n / inject_Z (2 ^ Z.of_nat 0) == inject_Z n).
  { change (inject_Z (2 ^ Z.of_nat 0)) with 1. field. }
  rewrite E in H. exact H.
Qed.

Lemma rnd_between (a b : Z) (x : Q) :
  (Z.abs a <= 2 ^ 53)%Z -> (Z.abs b <= 2 ^ 53)%Z ->
  inject_Z a <= x -> x <= inject_Z b ->
  inject_Z a <= rnd x /\ rnd x <= inject_Z b.
Proof.
  intros Ha Hb H0 H1. split.
  - rewrite <- (rnd_integer a Ha). apply rnd_monotone. exact H0.
  - rewrite <- (rnd_integer b Hb). apply rnd_monotone. exact H1.
Qed.

Lemma rnd_zero : rnd 0 == 0.
Proof. apply (rnd_integer 0). cbn. lia. Qed.

Lemma rnd_nonneg (x : Q) : 0 <= x -> 0 <= rnd x.
Proof. intros H. rewrite <- rnd_zero. apply rnd_monotone. exact H. Qed.

Lemma rnd_nonpos (x : Q) : x <= 0 -> rnd x <= 0.
Proof. intros H. rewrite <- rnd_zero. apply rnd_monotone. exact H. Qed.

(** *** [fmod] and [%] *)

Lemma c_fmod_nonneg (x y : Q) :
  0 < y -> 0 <= x -> Fl.c_fmod x y == Py.fmod x y.
Proof.
  intros Hy Hx. unfold Fl.c_fmod, Py.fmod, Fl.trunc.
  assert (Hq : 0 <= x / y) by (apply Qle_shift_div_l; [exact Hy | lra]).
  assert (E : Py.ltb (x / y) 0 = false) by (apply ltb_false_iff; exact Hq).
  rewrite E. reflexivity.
Qed.

Lemma c_fmod_negative (x y : Q) :
  0 < y -> x < 0 -> Fl.c_fmod x y == - Py.fmod (- x) y.
Proof.
  intros Hy Hx. unfold Fl.c_fmod, Py.fmod, Fl.trunc.
  assert (Hq : x / y < 0).
  { apply Qlt_shift_div_r; [exact Hy | lra]. }
  assert (E : Py.ltb (x / y) 0 = true) by (apply ltb_true_iff; exact Hq).
  rewrite E.
  assert (Eq : - (x / y) == - x / y) by (field; lra).
  rewrite (Qfloor_comp _ _ Eq), inject_Z_opp. ring.
Qed.

#[export] Instance c_fmod_compat : Proper (Qeq ==> Qeq ==> Qeq) Fl.c_fmod.
Proof.
  intros x x' Hx y y' Hy. unfold Fl.c_fmod, Fl.trunc.
  assert (Hq : x / y == x' / y') by (rewrite Hx, Hy; reflexivity).
  rewrite (ltb_compat _ _ Hq _ _ (Qeq_refl 0)).
  assert (Hq' : - (x / y) == - (x' / y')) by (rewrite Hq; reflexivity).
  rewrite (Qfloor_comp _ _ Hq), (Qfloor_comp _ _ Hq'), Hx, Hy. reflexivity.
Qed.

#[export] Instance mod_value_compat : Proper (Qeq ==> Qeq ==> Qeq) Fl.mod_value.
Proof.
  intros x x' Hx y y' Hy. unfold Fl.mod_value, Fl.add.
  pose proof (c_fmod_compat _ _ Hx _ _ Hy) as Hc.
  rewrite (eqb_compat _ _ Hc _ _ (Qeq_refl 0)),
          (ltb_compat _ _ Hc _ _ (Qeq_refl 0)),
          (ltb_compat _ _ Hy _ _ (Qeq_refl 0)).
  destruct (negb (Py.eqb (Fl.c_fmod x' y') 0)); [| reflexivity].
  destruct (xorb (Py.ltb y' 0) (Py.ltb (Fl.c_fmod x' y') 0)).
  - rewrite Hc, Hy. reflexivity.
  - exact Hc.
Qed.

(** How [%] by a positive divisor goes, by the sign of the dividend. *)
Lemma mod_value_cases (x y : Q) :
  0 < y ->
  (0 <= x /\ Fl.mod_value x y == Py.fmod x y) \/
  (x < 0 /\ Py.fmod (- x) y == 0 /\ Fl.mod_value x y == 0) \/
  (x < 0 /\ 0 < Py.fmod (- x) y /\
   Fl.mod_value x y == rnd (- Py.fmod (- x) y + y)).
Proof.
  intros Hy. unfold Fl.mod_value, Fl.add.
  assert (Ey : Py.ltb y 0 = false) by (apply ltb_false_iff; lra).
  rewrite Ey.
  destruct (Qlt_le_dec x 0) as [Hneg | Hpos].
  - right. pose proof (c_fmod_negative x y Hy Hneg) as Hc.
    destruct (fmod_bounds y Hy (- x)) as [F0 F1].
    rewrite (eqb_compat _ _ Hc _ _ (Qeq_refl 0)),
            (ltb_compat _ _ Hc _ _ (Qeq_refl 0)).
    destruct (Qlt_le_dec 0 (Py.fmod (- x) y)) as [Fpos | Fz].
    + right. split; [exact Hneg |]. split; [exact Fpos |].
      assert (E1 : Py.eqb (- Py.fmod (- x) y) 0 = false)
        by (apply eqb_false_iff; lra).
      assert (E2 : Py.ltb (- Py.fmod (- x) y) 0 = true)
        by (apply ltb_true_iff; lra).
      rewrite E1, E2. cbn [negb xorb]. rewrite Hc. reflexivity.
    + left. split; [exact Hneg |]. split; [lra |].
      assert (E1 : Py.eqb (- Py.fmod (- x) y) 0 = true)
        by (apply eqb_true_iff; lra).
      rewrite E1. reflexivity.
  - left. split; [exact Hpos |].
    pose proof (c_fmod_nonneg x y Hy Hpos) as Hc.
    destruct (fmod_bounds y Hy x) as [F0 F1].
    rewrite (eqb_compat _ _ Hc _ _ (Qeq_refl 0)),
            (ltb_compat _ _ Hc _ _ (Qeq_refl 0)).
    assert (E2 : Py.ltb (Py.fmod x y) 0 = false) by (apply ltb_false_iff; lra).
    rewrite E2. cbn [xorb].
    destruct (Py.eqb (Py.fmod x y) 0) eqn:E1; cbn [negb].
    + apply eqb_true_iff in E1. rewrite E1. reflexivity.
    + exact Hc.
Qed.

(** With rounding, [x % y] lies in the closed interval [[0, y]]: the upper
    end is not excluded. *)
Lemma mod_value_range (x : Q) (n : Z) :
  (0 < n <= 2 ^ 53)%Z ->
  0 <= Fl.mod_value x (inject_Z n) /\ Fl.mod_value x (inject_Z n) <= inject_Z n.
Proof.
  intros [N0 N1].
  assert (Hy : 0 < inject_Z n).
  { change 0 with (inject_Z 0). rewrite <- Zlt_Qlt. exact N0. }
  destruct (mod_value_cases x (inject_Z n) Hy)
    as [[Hx E] | [(Hx & _ & E) | (Hx & Fpos & E)]]; rewrite E.
  - destruct (fmod_bounds _ Hy x). split; lra.
  - split; lra.
  - destruct (fmod_bounds _ Hy (- x)) as [F0 F1].
    destruct (rnd_between 0 n (- Py.fmod (- x) (inject_Z n) + inject_Z n))
      as [B0 B1]; try (cbn; lia); try lia.
    + change (inject_Z 0) with 0. lra.
    + lra.
    + change (inject_Z 0) with 0 in B0. split; assumption.
Qed.

End RoundedFacts.

(** ** The throttle/steering mapper on binary64 *)

Section RoundedThrust.

Context {R : Rounding}.

Lemma fl_normalize_theta_returns (theta : Q) :
  Fl.normalize_theta theta = Returns (Fl.normalized theta).
Proof. reflexivity. Qed.

Lemma fl_compute_v_a_returns (r theta : Q) :
  Fl.compute_v_a r theta = Returns (Fl.v_a_of r theta).
Proof. reflexivity. Qed.

Lemma fl_get_motor_thrust_returns (r theta : Q) :
  Fl._get_motor_thrust r theta =
  Returns (Fl.thrust_of (clamp_throttle r) (Fl.normalized theta)).
Proof. reflexivity. Qed.

#[export] Instance fl_v_a_of_compat : Proper (Qeq ==> Qeq ==> Qeq) Fl.v_a_of.
Proof.
  intros r r' Hr t t' Ht. unfold Fl.v_a_of, Fl.mul, Fl.sub.
  rewrite Hr, Ht. reflexivity.
Qed.

#[export] Instance fl_compute_v_b_compat :
  Proper (Qeq ==> Qeq ==> Qeq) Fl.compute_v_b.
Proof.
  intros r r' Hr a a' Ha. unfold Fl.compute_v_b, Fl.mul, Fl.add, Fl.sub.
  rewrite Hr, Ha. reflexivity.
Qed.

#[export] Instance fl_thrust_of_compat :
  Proper (Qeq ==> Qeq ==> pair_eq) Fl.thrust_of.
Proof.
  intros r r' Hr t t' Ht. unfold Fl.thrust_of.
  apply assign_quadrant_compat; [exact Ht | |]; rewrite Hr, Ht; reflexivity.
Qed.

Lemma fl_normalized_range (theta : Q) :
  -180 <= Fl.normalized theta /\ Fl.normalized theta <= 180.
Proof.
  unfold Fl.normalized, Fl.sub.
  destruct (mod_value_range (Fl.add theta 180) 360 ltac:(lia)) as [M0 M1].
  change (inject_Z 360) with 360 in M0, M1.
  apply (rnd_between (-180) 180); try (cbn; lia).
  - change (inject_Z (-180)) with (-180). lra.
  - change (inject_Z 180) with 180. lra.
Qed.

Lemma fl_mod_90_range (theta : Q) :
  0 <= Fl.mod_value theta 90 /\ Fl.mod_value theta 90 <= 90.
Proof. apply (mod_value_range theta 90). lia. Qed.

(** [v_a] for a throttle in [[0, 100]]: within [[-100, 100]], and within
    the rounded double of the throttle. *)
Lemma fl_v_a_of_range (r theta : Q) :
  0 <= r -> r <= 100 ->
  within 100 (Fl.v_a_of r theta) /\ within (Fl.mul 2 r) (Fl.v_a_of r theta).
Proof.
  intros R0 R1. unfold Fl.v_a_of, within.
  destruct (fl_mod_90_range theta) as [M0 M1].
  set (m := Fl.mod_value theta 90) in *.
  destruct (rnd_between (-45) 45 (45 - m)) as [S0 S1]; try (cbn; lia).
  { change (inject_Z (-45)) with (-45). lra. }
  { change (inject_Z 45) with 45. lra. }
  change (inject_Z (-45)) with (-45) in S0. change (inject_Z 45) with 45 in S1.
  unfold Fl.sub. set (s := rnd (45 - m)) in *.
  assert (P0 : - (45 * r) <= r * s) by nra.
  assert (P1 : r * s <= 45 * r) by nra.
  change (Fl.mul r s) with (rnd (r * s)).
  (* against 100 *)
  destruct (rnd_between (-4500) 4500 (r * s)) as [B0 B1]; try (cbn; lia).
  { change (inject_Z (-4500)) with (-4500). lra. }
  { change (inject_Z 4500) with 4500. lra. }
  change (inject_Z (-4500)) with (-4500) in B0.
  change (inject_Z 4500) with 4500 in B1.
  (* against the double of the throttle *)
  assert (D1 : rnd (r * s) <= 90 * r).
  { apply Qle_trans with (rnd (45 * r)); [apply rnd_monotone; exact P1 |].
    apply Qle_trans with (2 * (45 * r)); [apply rnd_relative; lra | lra]. }
  assert (D0 : - (90 * r) <= rnd (r * s)).
  { apply Qle_trans with (rnd (- (45 * r))); [| apply rnd_monotone; exact P0].
    rewrite rnd_opp.
    assert (rnd (45 * r) <= 2 * (45 * r)) by (apply rnd_relative; lra). lra. }
  set (p := rnd (r * s)) in *.
  assert (Q0 : -100 <= p / 45 /\ p / 45 <= 100).
  { unfold Qdiv. change (/ 45) with (1 # 45). split; lra. }
  assert (Q1 : - (2 * r) <= p / 45 /\ p / 45 <= 2 * r).
  { unfold Qdiv. change (/ 45) with (1 # 45). split; lra. }
  split.
  - apply (rnd_between (-100) 100); try (cbn; lia).
    + change (inject_Z (-100)) with (-100). lra.
    + change (inject_Z 100) with 100. lra.
  - unfold Fl.mul. split.
    + rewrite <- rnd_opp. apply rnd_monotone. lra.
    + apply rnd_monotone. lra.
Qed.

(** [v_b] for a throttle in [[0, 100]] lies in [[0, 100]]. *)
Lemma fl_compute_v_b_range (r theta : Q) :
  0 <= r -> r <= 100 ->
  0 <= Fl.compute_v_b r (Fl.v_a_of r theta) /\
  Fl.compute_v_b r (Fl.v_a_of r theta) <= 100.
Proof.
  intros R0 R1.
  destruct (fl_v_a_of_range r theta R0 R1) as [_ [A0 A1]].
  unfold Fl.compute_v_b.
  set (a := Fl.v_a_of r theta) in *. set (d := Fl.mul 2 r) in *.
  destruct (min3_glb 100 (Fl.add d a) (Fl.sub d a)) as (M1 & M2 & M3 & M4).
  assert (P : 0 <= Fl.add d a) by (apply rnd_nonneg; lra).
  assert (N : 0 <= Fl.sub d a) by (apply rnd_nonneg; lra).
  split; lra.
Qed.

End RoundedThrust.

(** *** Exact arithmetic as an instance *)

Lemma exact_mod_value (x y : Q) :
  0 < y -> @Fl.mod_value exact_rounding x y == Py.fmod x y.
Proof.
  intros Hy.
  destruct (@mod_value_cases exact_rounding x y Hy)
    as [[Hx E] | [(Hx & Fz & E) | (Hx & Fpos & E)]]; rewrite E.
  - reflexivity.
  - pose proof (fmod_decompose y (- x)) as Hd.
    symmetry.
    apply (fmod_unique y Hy x 0 (- Qfloor (- x / y))); try lra.
    rewrite inject_Z_opp. lra.
  - pose proof (fmod_decompose y (- x)) as Hd.
    destruct (fmod_bounds y Hy (- x)) as [F0 F1].
    cbn [rnd exact_rounding]. symmetry.
    apply (fmod_unique y Hy x (- Py.fmod (- x) y + y) (- Qfloor (- x / y) - 1));
      try lra.
    unfold Z.sub. rewrite inject_Z_plus, !inject_Z_opp.
    change (inject_Z 1) with 1. lra.
Qed.

Lemma exact_v_a_of (r theta : Q) :
  @Fl.v_a_of exact_rounding r theta == v_a_of r theta.
Proof.
  unfold Fl.v_a_of, v_a_of, Fl.mul, Fl.sub. cbn [rnd exact_rounding].
  rewrite (exact_mod_value theta 90) by lra. reflexivity.
Qed.

Lemma exact_v_a_of_within (r theta : Q) :
  0 <= r -> within r (@Fl.v_a_of exact_rounding r theta).
Proof.
  intros Hr. destruct (v_a_of_within r theta Hr) as [A0 A1].
  unfold within. rewrite exact_v_a_of. split; assumption.
Qed.

Section RoundedClaims.

Context {R : Rounding}.

Lemma mod_value_period (x y : Q) :
  0 < y -> rnd (x + y) == x + y ->
  Fl.mod_value (x + y) y == Fl.mod_value x y.
Proof.
  intros Hy Hexact.
  destruct (mod_value_cases x y Hy)
    as [[Hx E] | [(Hx & Fz & E) | (Hx & Fpos & E)]];
  destruct (mod_value_cases (x + y) y Hy)
    as [[Hx' E'] | [(Hx' & Fz' & E') | (Hx' & Fpos' & E')]];
  rewrite E, E'; try lra.
  - apply fmod_period. exact Hy.
  - (* x < 0 <= x + y and - x is a multiple of y: x = - y *)
    destruct (Qlt_le_dec (- x) y) as [Hlt | Hge].
    + pose proof (fmod_small y Hy (- x) ltac:(lra) Hlt) as Hs. lra.
    + assert (Ex : x + y == 0) by lra.
      rewrite Ex. apply fmod_small; lra.
  - exfalso.
    pose proof (fmod_period y Hy (- (x + y))) as Hp.
    assert (Ex : - (x + y) + y == - x) by ring.
    rewrite Ex in Hp. lra.
  - destruct (Qlt_le_dec (- x) y) as [Hlt | Hge].
    + pose proof (fmod_small y Hy (- x) ltac:(lra) Hlt) as Hs.
      pose proof (fmod_small y Hy (x + y) Hx' ltac:(lra)) as Hs'.
      rewrite Hs, Hs'.
      assert (Es : - - x + y == x + y) by ring.
      rewrite Es, Hexact. reflexivity.
    + exfalso.
      assert (Ex : - x == 0 + y) by lra.
      pose proof (fmod_period y Hy 0) as Hp. rewrite <- Ex in Hp.
      pose proof (fmod_small y Hy 0 ltac:(lra) Hy) as Hz. lra.
  - exfalso.
    pose proof (fmod_period y Hy (- (x + y))) as Hp.
    assert (Ex : - (x + y) + y == - x) by ring.
    rewrite Ex in Hp. lra.
  - pose proof (fmod_period y Hy (- (x + y))) as Hp.
    assert (Ex : - (x + y) + y == - x) by ring.
    rewrite Ex in Hp. rewrite Hp. reflexivity.
Qed.

End RoundedClaims.

Section RoundedTheorems.

Context {R : Rounding}.

(** C3 (amended): the normalization step returns
    [((theta + 180) mod 360) - 180], computed on binary64, and the value it
    returns lies in the closed interval [[-180, 180]]. *)
Theorem normalize_theta_closed_range (theta : Q) :
  exists t,
    Fl.normalize_theta theta = Returns t /\
    t == rnd (Fl.mod_value (rnd (theta + 180)) 360 - 180) /\
    -180 <= t /\ t <= 180.
Proof.
  exists (Fl.normalized theta). split; [reflexivity |].
  split; [reflexivity |]. apply fl_normalized_range.
Qed.

(** C9: both mappers return a pair on every input and raise nothing;
    the pair [_get_motor_thrust] returns is built from the throttle clamped
    into [[0, 100]] and the angle normalized into [[-180, 180]]. *)
Theorem mappers_return :
  (forall fwd turn,
     (exists left right, Fl.translate_speed fwd turn = Returns (left, right)) /\
     (forall e, Fl.translate_speed fwd turn <> Raises e)) /\
  (forall r theta,
     exists t v_a,
       Fl.normalize_theta theta = Returns t /\
       -180 <= t /\ t <= 180 /\
       0 <= clamp_throttle r /\ clamp_throttle r <= 100 /\
       Fl.compute_v_a (clamp_throttle r) t = Returns v_a /\
       Fl._get_motor_thrust r theta =
         Returns (assign_quadrant t v_a
                    (Fl.compute_v_b (clamp_throttle r) v_a)) /\
       (forall e, Fl._get_motor_thrust r theta <> Raises e)).
Proof.
  split.
  - intros fwd turn. unfold Fl.translate_speed.
    py_cases; cbn [andb]; (split; [eexists; eexists; reflexivity | discriminate]).
  - intros r theta.
    exists (Fl.normalized theta),
           (Fl.v_a_of (clamp_throttle r) (Fl.normalized theta)).
    destruct (fl_normalized_range theta) as [N0 N1].
    destruct (clamp_throttle_range r) as [C0 C1].
    repeat (split; [first [reflexivity | assumption] |]).
    discriminate.
Qed.

(** C5 (amended), first part: for every call, on the clamped throttle [r]
    and the normalized angle [theta], [v_a] is
    [r * (45 - (theta mod 90)) / 45] computed on binary64 and lies in
    [[-100, 100]], [v_b] is [min(100, 2r + v_a, 2r - v_a)], and the pair
    returned is the one the quadrant of [theta] selects.  Second part: in
    exact arithmetic [v_a] lies in [[-r, r]]. *)
Theorem get_motor_thrust_steps_rounded :
  (forall r0 theta0,
     exists theta v_a v_b p,
       Fl.normalize_theta theta0 = Returns theta /\
       -180 <= theta /\ theta <= 180 /\
       0 <= clamp_throttle r0 /\ clamp_throttle r0 <= 100 /\
       Fl.compute_v_a (clamp_throttle r0) theta = Returns v_a /\
       v_a == rnd (rnd (clamp_throttle r0
                        * rnd (45 - Fl.mod_value theta 90)) / 45) /\
       0 <= Fl.mod_value theta 90 /\ Fl.mod_value theta 90 <= 90 /\
       within 100 v_a /\
       v_b = Fl.compute_v_b (clamp_throttle r0) v_a /\
       v_b == Qmin 100 (Qmin (rnd (rnd (2 * clamp_throttle r0) + v_a))
                             (rnd (rnd (2 * clamp_throttle r0) - v_a))) /\
       Fl._get_motor_thrust r0 theta0 = Returns p /\
       (theta < -90 -> p = (- v_b, - v_a)) /\
       (-90 <= theta -> theta < 0 -> p = (- v_a, v_b)) /\
       (0 <= theta -> theta < 90 -> p = (v_b, v_a)) /\
       (90 <= theta -> p = (v_a, - v_b))) /\
  (forall r0 theta,
     within (clamp_throttle r0)
            (@Fl.v_a_of exact_rounding (clamp_throttle r0) theta)).
Proof.
  split.
  - intros r0 theta0.
    set (r := clamp_throttle r0). set (theta := Fl.normalized theta0).
    exists theta, (Fl.v_a_of r theta), (Fl.compute_v_b r (Fl.v_a_of r theta)),
           (Fl.thrust_of r theta).
    destruct (fl_normalized_range theta0) as [N0 N1].
    destruct (clamp_throttle_range r0) as [C0 C1].
    destruct (fl_mod_90_range theta) as [M0 M1].
    destruct (fl_v_a_of_range r theta C0 C1) as [A _].
    destruct (assign_quadrant_cases theta (Fl.v_a_of r theta)
                (Fl.compute_v_b r (Fl.v_a_of r theta))) as (Q1 & Q2 & Q3 & Q4).
    repeat (split; [first [reflexivity | assumption] |]).
    split; [apply min3_reference |].
    split; [reflexivity |].
    repeat split; assumption.
  - intros r0 theta. apply exact_v_a_of_within. apply clamp_throttle_range.
Qed.

(** C8 (amended): when the three additions [theta + 360], [theta + 180]
    and [(theta + 360) + 180] are exact on binary64, the mapper returns the
    same pair at [theta] and at [theta + 360]. *)
Theorem get_motor_thrust_periodic_exact_sums (t theta : Q) :
  rnd (theta + 360) == theta + 360 ->
  rnd (theta + 180) == theta + 180 ->
  rnd (theta + 360 + 180) == theta + 360 + 180 ->
  agree pair_eq (Fl._get_motor_thrust t theta)
                (Fl._get_motor_thrust t (Fl.add theta 360)).
Proof.
  intros H360 H180 H540.
  rewrite !fl_get_motor_thrust_returns. constructor.
  apply fl_thrust_of_compat; [reflexivity |].
  unfold Fl.normalized, Fl.sub, Fl.add.
  assert (E2 : rnd (rnd (theta + 360) + 180) == theta + 180 + 360).
  { rewrite H360, H540. ring. }
  rewrite E2, H180.
  rewrite (mod_value_period (theta + 180) 360); [reflexivity | lra |].
  assert (E3 : theta + 180 + 360 == theta + 360 + 180) by ring.
  rewrite E3, H540. reflexivity.
Qed.

Lemma clamp_throttle_float (r : Q) :
  rnd r == r -> rnd (clamp_throttle r) == clamp_throttle r.
Proof.
  intros Hr. unfold clamp_throttle, Py.min, Py.max.
  destruct (Py.ltb 0 r); destruct (Py.ltb 100 _); try exact Hr.
  - apply (rnd_integer 100). cbn. lia.
  - apply (rnd_integer 100). cbn. lia.
  - apply rnd_zero.
Qed.

(** C10 (amended): for every float throttle and every angle, [v_b] lies in
    [[0, 100]]; whenever [|v_a|] does not exceed the clamped throttle, [v_b]
    is at least [|v_a|] and the component of the returned pair that holds
    [+-v_b] is at least as large in absolute value as the one that holds
    [+-v_a].  In exact arithmetic [|v_a|] never exceeds the clamped
    throttle. *)
Theorem outer_wheel_dominates_rounded :
  (forall r theta,
     rnd r == r ->
     exists t v_a v_b p,
       Fl.normalize_theta theta = Returns t /\
       Fl.compute_v_a (clamp_throttle r) t = Returns v_a /\
       v_b = Fl.compute_v_b (clamp_throttle r) v_a /\
       0 <= v_b /\ v_b <= 100 /\
       Fl._get_motor_thrust r theta = Returns p /\
       p = assign_quadrant t v_a v_b /\
       Qabs (fst (outer_inner t p)) == v_b /\
       Qabs (snd (outer_inner t p)) == Qabs v_a /\
       (Qabs v_a <= clamp_throttle r ->
        Qabs v_a <= v_b /\
        Qabs (snd (outer_inner t p)) <= Qabs (fst (outer_inner t p)))) /\
  (forall r theta,
     Qabs (@Fl.v_a_of exact_rounding (clamp_throttle r) theta)
     <= clamp_throttle r).
Proof.
  split.
  - intros r0 theta Hfloat.
    destruct (clamp_throttle_range r0) as [C0 C1].
    pose proof (clamp_throttle_float r0 Hfloat) as Hc.
    set (c := clamp_throttle r0) in *.
    set (t := Fl.normalized theta).
    exists t, (Fl.v_a_of c t), (Fl.compute_v_b c (Fl.v_a_of c t)),
           (Fl.thrust_of c t).
    destruct (fl_compute_v_b_range c t C0 C1) as [B0 B1].
    do 6 (split; [first [reflexivity | assumption] |]).
    split; [reflexivity |].
    set (a := Fl.v_a_of c t) in *. set (b := Fl.compute_v_b c a) in *.
    assert (Hb : Qabs b == b) by (apply Qabs_pos; exact B0).
    assert (Hdom : Qabs a <= c -> Qabs a <= b).
    { intros Ha. apply Qabs_Qle_condition in Ha. destruct Ha as [A0 A1].
      pose proof (rnd_double c Hc) as Hd.
      unfold b, Fl.compute_v_b, Fl.mul.
      destruct (min3_glb 100 (Fl.add (rnd (2 * c)) a) (Fl.sub (rnd (2 * c)) a))
        as (M1 & M2 & M3 & M4).
      assert (P : c <= Fl.add (rnd (2 * c)) a).
      { rewrite <- Hc at 1. apply rnd_monotone. lra. }
      assert (N : c <= Fl.sub (rnd (2 * c)) a).
      { rewrite <- Hc at 1. apply rnd_monotone. lra. }
      apply Qabs_Qle_condition. split; lra. }
    unfold Fl.thrust_of, outer_inner, assign_quadrant. fold a. fold b.
    py_cases; cbn [fst snd]; rewrite ?Qabs_opp, Hb;
      (split; [reflexivity |]); (split; [reflexivity |]);
      intros Ha; (split; [apply Hdom; exact Ha |]);
      apply Hdom; exact Ha.
  - intros r theta. apply Qabs_Qle_condition.
    apply exact_v_a_of_within. apply clamp_throttle_range.
Qed.

End RoundedTheorems.

Lemma get_motor_thrust_periodic_exact_sums_witness :
  agree pair_eq
    (@Fl._get_motor_thrust exact_rounding 50 30)
    (@Fl._get_motor_thrust exact_rounding 50 (@Fl.add exact_rounding 30 360)).
Proof.
  apply (@get_motor_thrust_periodic_exact_sums exact_rounding 50 30);
    reflexivity.
Defined.

Lemma outer_wheel_dominates_rounded_witness :
  exists t v_a v_b p,
    @Fl.normalize_theta exact_rounding 30 = Returns t /\
    @Fl.compute_v_a exact_rounding (clamp_throttle 50) t = Returns v_a /\
    v_b = @Fl.compute_v_b exact_rounding (clamp_throttle 50) v_a /\
    0 <= v_b /\ v_b <= 100 /\
    @Fl._get_motor_thrust exact_rounding 50 30 = Returns p /\
    p = assign_quadrant t v_a v_b /\
    Qabs (fst (outer_inner t p)) == v_b /\
    Qabs (snd (outer_inner t p)) == Qabs v_a /\
    (Qabs v_a <= clamp_throttle 50 ->
     Qabs v_a <= v_b /\
     Qabs (snd (outer_inner t p)) <= Qabs (fst (outer_inner t p))).
Proof.
  apply (proj1 (@outer_wheel_dominates_rounded exact_rounding) 50 30).
  reflexivity.
Defined.

(** ** The throttle/steering mapper run on binary64 *)

(** C3 (as stated, fails on the code): a steering angle of 180 degrees is
    normalized to -180, which is not above -180; this is so on binary64 and
    in exact arithmetic alike. *)
Lemma normalize_theta_at_180 :
  F64.normalize_theta 180 = (-180)%float /\
  PrimFloat.ltb (-180) (F64.normalize_theta 180) = false /\
  normalize_theta 180 = Returns (-180) /\ ~ -180 < -180.
Proof.
  split; [vm_compute; reflexivity |].
  split; [vm_compute; reflexivity |].
  split; [reflexivity |].
  unfold Qlt; simpl. lia.
Qed.

(** On binary64 the upper end of the interval is reached as well: the float
    next below -180 is normalized to 180.0. *)
Lemma normalize_theta_reaches_180 :
  F64.normalize_theta (-0x1.6800000000001p+7) = 180%float.
Proof. vm_compute. reflexivity. Qed.

(** C5 (as stated, fails on the code): at the throttle 99.99 and the angle
    0, both left as they are by the clamp and the normalization, [v_a] is
    99.990000000000009, above the throttle. *)
Lemma compute_v_a_exceeds_throttle :
  F64.clamp_throttle 0x1.8ff5c28f5c28fp+6 = 0x1.8ff5c28f5c28fp+6%float /\
  F64.normalize_theta 0 = 0%float /\
  PrimFloat.ltb 0x1.8ff5c28f5c28fp+6
                (F64.compute_v_a 0x1.8ff5c28f5c28fp+6 0) = true.
Proof. repeat split; vm_compute; reflexivity. Qed.

(** C8 (as stated, fails on the code): at throttle 50 the thrusts at the
    angles 0.1 and 0.1 + 360 differ; and at the float next below -180 the
    code returns (50, -50), but (-50, -50) one turn further. *)
Lemma get_motor_thrust_not_periodic :
  PrimFloat.eqb
    (fst (F64._get_motor_thrust 50 0x1.999999999999ap-4))
    (fst (F64._get_motor_thrust 50 (0x1.999999999999ap-4 + 360)%float))
  = false /\
  F64._get_motor_thrust 50 (-0x1.6800000000001p+7)
  = (50%float, (-50)%float) /\
  F64._get_motor_thrust 50 (-0x1.6800000000001p+7 + 360)%float
  = ((-50)%float, (-50)%float).
Proof. repeat split; vm_compute; reflexivity. Qed.

(** C10 (as stated, fails on the code): at the throttle 99.99 and the angle
    0 the code returns [(v_b, v_a)] with [v_b] below [v_a]: the outer wheel
    is the slower one. *)
Lemma outer_wheel_slower_than_inner :
  F64._get_motor_thrust 0x1.8ff5c28f5c28fp+6 0
  = (F64.compute_v_b 0x1.8ff5c28f5c28fp+6
       (F64.compute_v_a 0x1.8ff5c28f5c28fp+6 0),
     F64.compute_v_a 0x1.8ff5c28f5c28fp+6 0) /\
  PrimFloat.ltb
    (F64.compute_v_b 0x1.8ff5c28f5c28fp+6
       (F64.compute_v_a 0x1.8ff5c28f5c28fp+6 0))
    (F64.compute_v_a 0x1.8ff5c28f5c28fp+6 0) = true.
Proof. split; vm_compute; reflexivity. Qed.
